(** * Mice Mobility Analyser: zone geometry, colours, overlays, viewport,
      playback loop and zone store

    A shallow embedding of [main.py] (the video player) and
    [frame_constructor_GUI.py] (the zone editor), followed by the properties
    of the written specification that were checked against it.

    Conventions of the embedding.
    - Python [int] is [Z]; Python [float] and NumPy [float64] are IEEE-754
      binary64 numbers, modelled by the standard library's [spec_float] with
      [prec = 53] and [emax = 1024] (round to nearest, ties to even).
    - A JSON document is a value of [json]; a Python [dict] is an association
      list in insertion order.
    - Code that can raise returns [option] (or [outcome]); [None] is an
      uncaught exception.
    - OpenCV drawing calls are recorded as constructors of [image]: the value
      of a raster is the history of calls that painted it.
    - Console output, progress bars and Tk widgets are not modelled. *)

From Stdlib Require Import ZArith Lia List Bool String Ascii.
From Stdlib Require Import SpecFloat DecimalString.
From Stdlib Require Import Reals Lra.
Import ListNotations.
Local Open Scope string_scope.
Local Open Scope list_scope.
Local Open Scope Z_scope.

(** ** Binary64 arithmetic *)

Module Binary64.

Definition float64 : Type := spec_float.
Definition prec : Z := 53.
Definition emax : Z := 1024.

Definition fadd : float64 -> float64 -> float64 := SFadd prec emax.
Definition fsub : float64 -> float64 -> float64 := SFsub prec emax.
Definition fmul : float64 -> float64 -> float64 := SFmul prec emax.
Definition fdiv : float64 -> float64 -> float64 := SFdiv prec emax.
Definition fneg : float64 -> float64 := SFopp.
Definition flt : float64 -> float64 -> bool := SFltb.
Definition fle : float64 -> float64 -> bool := SFleb.
Definition feq : float64 -> float64 -> bool := SFeqb.

(** [float(z)]: the nearest binary64 number. *)
Definition of_int (z : Z) : float64 := binary_normalize prec emax z 0 false.

(** The decimal literal [n * 10^-k].  Both operands convert exactly when
    they are below [2^53], so the quotient is the correctly rounded literal,
    as Python's parser produces it. *)
Definition dec (n k : Z) : float64 := fdiv (of_int n) (of_int (10 ^ k)).

(** Python's [a / b] on two [int]s (exact for operands below [2^53]). *)
Definition int_truediv (a b : Z) : float64 := fdiv (of_int a) (of_int b).

(** The integer part, toward zero; [None] on NaN and infinities. *)
Definition trunc (x : float64) : option Z :=
  match x with
  | S754_zero _ => Some 0
  | S754_finite s m e =>
      Some (cond_Zopp s (if 0 <=? e then Z.pos m * 2 ^ e else Z.pos m / 2 ^ (- e)))
  | _ => None
  end.

(** Python's [int(x)] on a float: raises on NaN ([ValueError]) and on
    infinities ([OverflowError]). *)
Definition py_int (x : float64) : option Z := trunc x.

(** Python's two-argument [min] and [max]: the first argument wins ties and
    unordered comparisons. *)
Definition py_min (a b : float64) : float64 := if flt b a then b else a.
Definition py_max (a b : float64) : float64 := if flt a b then b else a.

(** Python's [x % 1.0] for [x >= 0]: the fractional part, which is exact. *)
Definition mod_one (x : float64) : float64 :=
  match trunc x with
  | Some t => fsub x (of_int t)
  | None => S754_nan
  end.

(** Structural equality of two binary64 values ([+0] and [-0] differ). *)
Definition same (x y : float64) : bool :=
  match x, y with
  | S754_zero a, S754_zero b => Bool.eqb a b
  | S754_infinity a, S754_infinity b => Bool.eqb a b
  | S754_nan, S754_nan => true
  | S754_finite a m e, S754_finite b n f => Bool.eqb a b && Pos.eqb m n && Z.eqb e f
  | _, _ => false
  end.

Definition pzero : float64 := S754_zero false.
Definition one : float64 := Eval vm_compute in of_int 1.
Definition two : float64 := Eval vm_compute in of_int 2.

(** [int32] range and the cast of a double to [int32] as [astype(np.int32)]
    performs it on AMD64 (the platform named in [main.py]'s header): the
    truncated value when it fits, the "integer indefinite" value [-2^31]
    otherwise. *)
Definition in_int32 (z : Z) : bool := (- 2 ^ 31 <=? z) && (z <? 2 ^ 31).
Definition cast_int32 (z : option Z) : Z :=
  match z with
  | Some v => if in_int32 v then v else - 2 ^ 31
  | None => - 2 ^ 31
  end.

(** *** Values that need no rounding

    [dyadic h e] is the double for [h * 2^e]; when [h] has at most 53 bits
    it is [h * 2^e] itself, with mantissa [canon_m h].  [half h] is [h / 2]. *)
Definition canon_m (h : Z) : positive := Z.to_pos (Z.abs h * 2 ^ (53 - Zdigits2 h)).
Definition dyadic (h e : Z) : float64 := binary_normalize prec emax h e false.
Definition half (h : Z) : float64 := dyadic h (-1).

(** A half-integer of magnitude below [2^53] is [+0] or a normal number. *)
Inductive half_shape (h : Z) : float64 -> Prop :=
  | shape_zero : h = 0 -> half_shape h pzero
  | shape_normal (M : positive) (E : Z) :
      h <> 0 -> Z.pos (Pos.size M) = 53 -> -53 <= E <= -1 ->
      half_shape h (S754_finite (h <? 0) M E).

(** A value that is a number, of magnitude below [2^k]. *)
Definition bounded_by (k : Z) (x : float64) : Prop :=
  match x with
  | S754_zero _ => True
  | S754_finite _ m e => Zdigits2 (Z.pos m) + e <= k
  | _ => False
  end.

End Binary64.

(** ** Geometry engine

    [get_rotated_rectangle_points] is defined twice in the sources with the
    same body: [main.py] lines 65-100 and
    [FrameEditorGUI.get_rotated_rectangle_points],
    [frame_constructor_GUI.py] lines 545-573.  It is written once here, over
    the arithmetic it runs on, so that the formulas can be read both in
    binary64 (what NumPy computes) and over the reals (what the formulas
    denote before rounding). *)

Module Geometry.
Import Binary64.

(** The floating-point operations the function uses.  [np_radians],
    [np_cos] and [np_sin] are NumPy's; [astype_int32] is
    [ndarray.astype(np.int32)]. *)
Class Arith (F : Type) : Type := {
  of_Z : Z -> F;
  add : F -> F -> F;
  sub : F -> F -> F;
  mul : F -> F -> F;
  div : F -> F -> F;
  neg : F -> F;
  np_radians : F -> F;
  np_cos : F -> F;
  np_sin : F -> F;
  astype_int32 : F -> Z
}.

(** A Python number: zone coordinates and angles are [int]s when they come
    from the editor and may be [float]s when they come from a JSON file. *)
Inductive num (F : Type) : Type :=
  | NInt (z : Z)
  | NFloat (x : F).
Arguments NInt {F} z.
Arguments NFloat {F} x.

Section Formulas.
Context {F : Type} {A : Arith F}.

Definition to_float (a : num F) : F :=
  match a with
  | NInt z => of_Z z
  | NFloat x => x
  end.

(** [a + b]: exact on two [int]s, a float addition otherwise. *)
Definition py_add (a b : num F) : num F :=
  match a, b with
  | NInt x, NInt y => NInt (x + y)
  | _, _ => NFloat (add (to_float a) (to_float b))
  end.

(** [a / 2] (true division) and [a - c] for a float [c]. *)
Definition py_half (a : num F) : F := div (to_float a) (of_Z 2).
Definition py_sub (a : num F) (c : F) : F := sub (to_float a) c.

(** One row of [np.dot(corners, rotation_matrix.T)] for the matrix
    [[cos_rot, -sin_rot], [sin_rot, cos_rot]]. *)
Definition dot_row (cos_rot sin_rot : F) (corner : F * F) : F * F :=
  let '(a, b) := corner in
  (add (mul a cos_rot) (mul b (neg sin_rot)),
   add (mul a sin_rot) (mul b cos_rot)).

Definition get_rotated_rectangle_points
    (top_left bottom_right : num F * num F) (rotation_degrees : num F)
    : list (Z * Z) :=
  let '(x1, y1) := top_left in
  let '(x2, y2) := bottom_right in
  let center_x := py_half (py_add x1 x2) in
  let center_y := py_half (py_add y1 y2) in
  let rotation_rad := np_radians (to_float rotation_degrees) in
  let corners :=
    [ (py_sub x1 center_x, py_sub y1 center_y);
      (py_sub x2 center_x, py_sub y1 center_y);
      (py_sub x2 center_x, py_sub y2 center_y);
      (py_sub x1 center_x, py_sub y2 center_y) ] in
  let cos_rot := np_cos rotation_rad in
  let sin_rot := np_sin rotation_rad in
  let rotated_corners := map (dot_row cos_rot sin_rot) corners in
  let rotated_corners :=
    map (fun p => (add (fst p) center_x, add (snd p) center_y)) rotated_corners in
  map (fun p => (astype_int32 (fst p), astype_int32 (snd p))) rotated_corners.

End Formulas.

(** *** The binary64 reading *)

(** The C library's cosine and sine, which NumPy calls. *)
Record libm : Type := {
  libm_cos : float64 -> float64;
  libm_sin : float64 -> float64
}.

Definition pi64 : float64 := Eval vm_compute in dec 3141592653589793 15.

(** [np.radians(x)] is [x * (NPY_PI / 180.0)]. *)
Definition deg2rad : float64 := Eval vm_compute in fdiv pi64 (of_int 180).

#[export] Instance binary64 (m : libm) : Arith float64 := {
  of_Z := of_int;
  add := fadd;
  sub := fsub;
  mul := fmul;
  div := fdiv;
  neg := fneg;
  np_radians := fun x => fmul x deg2rad;
  np_cos := libm_cos m;
  np_sin := libm_sin m;
  astype_int32 := fun x => cast_int32 (trunc x)
}.

(** The values of the C library's [cos] and [sin] at the three arguments
    [np.radians] yields for 0, 180 and 360 degrees: [+0], the double nearest
    to pi and the double nearest to 2 pi.  They are the correctly rounded
    results ([sin] of the double nearest to pi is [0x1.1a62633145c07p-53],
    about [1.2246e-16], not [0]).  Other arguments are outside this sample
    and yield NaN. *)
Definition sin_pi64 : float64 := S754_finite false 4967757600021511 (-105).
Definition two_pi64 : float64 := Eval vm_compute in fmul (of_int 360) deg2rad.

Definition libm_sample : libm := {|
  libm_cos := fun x =>
    if same x pzero then one
    else if same x pi64 then fneg one
    else if same x two_pi64 then one
    else S754_nan;
  libm_sin := fun x =>
    if same x pzero then pzero
    else if same x pi64 then sin_pi64
    else if same x two_pi64 then fneg (fmul two sin_pi64)
    else S754_nan
|}.

(** *** The reading over the reals *)

(** Truncation toward zero. *)
Definition R_trunc (x : R) : Z :=
  if Rle_dec 0 x then Int_part x else (- Int_part (- x))%Z.

#[export] Instance exact : Arith R := {
  of_Z := IZR;
  add := Rplus;
  sub := Rminus;
  mul := Rmult;
  div := Rdiv;
  neg := Ropp;
  np_radians := fun x => (x * (PI / 180))%R;
  np_cos := cos;
  np_sin := sin;
  astype_int32 := fun x => cast_int32 (Some (R_trunc x))
}.

(** The corners in the order bottom-right, bottom-left, top-left, top-right:
    each corner exchanged with the diagonally opposite one. *)
Definition opposite_pairing (corners : list (Z * Z)) : list (Z * Z) :=
  match corners with
  | [a; b; c; d] => [c; d; a; b]
  | _ => corners
  end.

End Geometry.

(** ** JSON documents and Python's dictionary operations on them *)

Module Json.
Import Binary64.

#[warnings="-register-all"]
Inductive json : Type :=
  | JNull
  | JBool (b : bool)
  | JInt (z : Z)
  | JFloat (x : float64)
  | JStr (s : string)
  | JArr (items : list json)
  | JObj (fields : list (string * json)).

(** The first binding of a key. *)
Fixpoint lookup (k : string) (fields : list (string * json)) : option json :=
  match fields with
  | [] => None
  | (k', v) :: rest => if String.eqb k k' then Some v else lookup k rest
  end.

(** [d[k] = v]: an existing key keeps its place, a new key goes last. *)
Fixpoint assoc_set (k : string) (v : json) (fields : list (string * json))
    : list (string * json) :=
  match fields with
  | [] => [(k, v)]
  | (k', v') :: rest =>
      if String.eqb k k' then (k, v) :: rest else (k', v') :: assoc_set k v rest
  end.

(** [d.get(k)]: [None] of Python is [JNull]; a value that is not a [dict]
    has no [get] ([AttributeError]). *)
Definition dict_get (k : string) (d : json) : option json :=
  match d with
  | JObj fields => Some (match lookup k fields with Some v => v | None => JNull end)
  | _ => None
  end.

(** [d.get(k, default)]. *)
Definition dict_get_default (k : string) (default : json) (d : json) : option json :=
  match d with
  | JObj fields => Some (match lookup k fields with Some v => v | None => default end)
  | _ => None
  end.

(** [d[k]]: [KeyError] on a missing key, [TypeError] off a [dict]. *)
Definition dict_item (k : string) (d : json) : option json :=
  match d with
  | JObj fields => lookup k fields
  | _ => None
  end.

(** [d[k] = v]. *)
Definition dict_set (k : string) (v : json) (d : json) : option json :=
  match d with
  | JObj fields => Some (JObj (assoc_set k v fields))
  | _ => None
  end.

(** A [dict]. *)
Definition is_object (j : json) : bool :=
  match j with
  | JObj _ => true
  | _ => false
  end.

Definition is_str (s : string) (j : json) : bool :=
  match j with
  | JStr s' => String.eqb s s'
  | _ => false
  end.

Fixpoint is_substring (s t : string) : bool :=
  String.prefix s t ||
  match t with
  | EmptyString => false
  | String _ t' => is_substring s t'
  end.

(** [k in c] for a string [k]: key membership on a [dict], element
    membership on a [list], substring on a [str], [TypeError] otherwise. *)
Definition contains (k : string) (c : json) : option bool :=
  match c with
  | JObj fields => Some (match lookup k fields with Some _ => true | None => false end)
  | JArr items => Some (existsb (is_str k) items)
  | JStr s => Some (is_substring k s)
  | _ => None
  end.

Fixpoint chars (s : string) : list json :=
  match s with
  | EmptyString => []
  | String c s' => JStr (String c EmptyString) :: chars s'
  end.

(** What [for x in c] visits: the items of a [list], the keys of a [dict],
    the characters of a [str]; other values are not iterable. *)
Definition iterate (c : json) : option (list json) :=
  match c with
  | JArr items => Some items
  | JObj fields => Some (map (fun kv => JStr (fst kv)) fields)
  | JStr s => Some (chars s)
  | _ => None
  end.

(** Python's truth value of a document. *)
Definition truthy (j : json) : bool :=
  match j with
  | JNull => false
  | JBool b => b
  | JInt z => negb (z =? 0)
  | JFloat x => negb (feq x pzero)
  | JStr s => negb (String.eqb s "")
  | JArr items => match items with [] => false | _ => true end
  | JObj fields => match fields with [] => false | _ => true end
  end.

End Json.

(** ** Colour assignment *)

Module Colors.
Import Binary64.

Definition six : float64 := Eval vm_compute in of_int 6.
Definition f255 : float64 := Eval vm_compute in of_int 255.

(** [colorsys.hsv_to_rgb] of the Python standard library. *)
Definition hsv_to_rgb (h s v : float64) : option (float64 * float64 * float64) :=
  if feq s pzero then Some (v, v, v)
  else
    match py_int (fmul h six) with
    | None => None
    | Some i =>
        let f := fsub (fmul h six) (of_int i) in
        let p := fmul v (fsub one s) in
        let q := fmul v (fsub one (fmul s f)) in
        let t := fmul v (fsub one (fmul s (fsub one f))) in
        let i := i mod 6 in
        if i =? 0 then Some (v, t, p)
        else if i =? 1 then Some (q, v, p)
        else if i =? 2 then Some (p, v, t)
        else if i =? 3 then Some (p, q, v)
        else if i =? 4 then Some (t, p, v)
        else if i =? 5 then Some (v, p, q)
        else None
    end.

(** [[int(rgb[2] * 255), int(rgb[1] * 255), int(rgb[0] * 255)]]. *)
Definition bgr (rgb : float64 * float64 * float64) : option (list Z) :=
  let '(r, g, b) := rgb in
  match py_int (fmul b f255), py_int (fmul g f255), py_int (fmul r f255) with
  | Some b', Some g', Some r' => Some [b'; g'; r']
  | _, _, _ => None
  end.

Definition hsv_color (h s v : float64) : option (list Z) :=
  match hsv_to_rgb h s v with
  | Some rgb => bgr rgb
  | None => None
  end.

(** The body of the loop of [generate_colors] ([main.py] lines 52-61) for
    one [i]. *)
Definition batch_color (num_colors i : Z) : option (list Z) :=
  let hue := int_truediv i num_colors in
  let saturation := fadd (dec 8 1) (fmul (of_int (i mod 2)) (dec 2 1)) in
  let value := fadd (dec 9 1) (fmul (of_int (i mod 3)) (dec 1 1)) in
  hsv_color hue saturation (py_min value one).

Fixpoint all_some {A : Type} (l : list (option A)) : option (list A) :=
  match l with
  | [] => Some []
  | None :: _ => None
  | Some a :: rest =>
      match all_some rest with
      | Some r => Some (a :: r)
      | None => None
      end
  end.

(** [generate_colors(num_colors)], [main.py] lines 49-63. *)
Definition generate_colors (num_colors : nat) : option (list (list Z)) :=
  all_some (map (fun i => batch_color (Z.of_nat num_colors) (Z.of_nat i))
                (seq 0 num_colors)).

(** [FrameEditorGUI.generate_color_for_frame(index)],
    [frame_constructor_GUI.py] lines 105-113. *)
Definition generate_color_for_frame (index : Z) : option (list Z) :=
  let hue := mod_one (fmul (of_int index) (dec 618033988749895 15)) in
  hsv_color hue (dec 8 1) (dec 9 1).

End Colors.

(** ** Overlay compositors *)

Module Overlay.
Import Binary64 Geometry Json.

(** A raster, as the sequence of OpenCV calls that produced it.  [Raw n] is
    the [n]-th frame the decoder delivered; every other constructor is one
    call, its first argument the raster it painted on.  [image.copy()] is
    the identity on these values. *)
Inductive image : Type :=
  | Raw (n : nat)
  | Resize (src : image) (width height : Z)
  | Polylines (img : image) (pts : list (Z * Z)) (is_closed : bool)
              (color : json) (thickness : Z)
  | FillPoly (img : image) (pts : list (Z * Z)) (color : json)
  | PutText (img : image) (text : string) (org : Z * Z) (font_scale : float64)
            (color : json) (thickness : Z)
  | AddWeighted (src1 : image) (alpha : float64) (src2 : image) (beta : float64)
                (gamma : float64).

Definition as_num (j : json) : option (num float64) :=
  match j with
  | JInt z => Some (NInt z)
  | JBool b => Some (NInt (if b then 1 else 0))
  | JFloat x => Some (NFloat x)
  | _ => None
  end.

(** [x, y = p] followed by arithmetic on [x] and [y]. *)
Definition as_point (j : json) : option (num float64 * num float64) :=
  match j with
  | JArr [a; b] =>
      match as_num a, as_num b with
      | Some x, Some y => Some (x, y)
      | _, _ => None
      end
  | _ => None
  end.

(** A colour OpenCV accepts: a sequence of at most four numbers. *)
Definition valid_color (c : json) : bool :=
  match c with
  | JArr items =>
      (List.length items <=? 4)%nat &&
      forallb (fun j => match as_num j with Some _ => true | None => false end) items
  | _ => false
  end.

Definition as_text (j : json) : option string :=
  match j with
  | JStr s => Some s
  | _ => None
  end.

Definition white : json := JArr [JInt 255; JInt 255; JInt 255].
Definition black : json := JArr [JInt 0; JInt 0; JInt 0].
Definition yellow : json := JArr [JInt 255; JInt 255; JInt 0].

(** [int(np.mean(column))] over the four corners. *)
Definition mean4 (a b c d : Z) : option Z := py_int (fdiv (of_int (a + b + c + d)) (of_int 4)).

Definition label_pos (points : list (Z * Z)) : option (Z * Z) :=
  match points with
  | [(x0, y0); (x1, y1); (x2, y2); (x3, y3)] =>
      match mean4 x0 x1 x2 x3, mean4 y0 y1 y2 y3 with
      | Some x, Some y => Some (x, y)
      | _, _ => None
      end
  | _ => None
  end.

(** [f'Frame_{i+1}']. *)
Definition frame_label (i : nat) : string :=
  String.append "Frame_" (NilZero.string_of_uint (Nat.to_uint (S i))).

Section Compositors.
Variable m : libm.

Definition zone_points (frame_config : json) (rotation_default : json)
    : option (list (Z * Z)) :=
  match dict_item "top_left" frame_config, dict_item "bottom_right" frame_config,
        dict_get_default "rotation" rotation_default frame_config with
  | Some tl, Some br, Some rot =>
      match as_point tl, as_point br, as_num rot with
      | Some p1, Some p2, Some r =>
          Some (get_rotated_rectangle_points (A := binary64 m) p1 p2 r)
      | _, _, _ => None
      end
  | _, _, _ => None
  end.

(** One pass of the loop of [draw_frame_overlays], [main.py] lines
    106-125: everything is painted on [overlay]. *)
Definition paint_zone (overlay : image) (i : nat) (frame_config : json) : option image :=
  match zone_points frame_config (JInt 0), dict_get "color" frame_config,
        dict_get_default "name" (JStr (frame_label i)) frame_config with
  | Some points, Some color, Some name =>
      match label_pos points, as_text name with
      | Some pos, Some text =>
          if valid_color color then
            let overlay := Polylines overlay points true color 3 in
            let overlay := FillPoly overlay points color in
            let overlay := PutText overlay text pos (dec 7 1) white 2 in
            Some (PutText overlay text pos (dec 7 1) black 1)
          else None
      | _, _ => None
      end
  | _, _, _ => None
  end.

Fixpoint paint_zones (overlay : image) (i : nat) (frames_config : list json)
    : option image :=
  match frames_config with
  | [] => Some overlay
  | frame_config :: rest =>
      match paint_zone overlay i frame_config with
      | Some overlay' => paint_zones overlay' (S i) rest
      | None => None
      end
  end.

(** [draw_frame_overlays(image, frames_config)], [main.py] lines 102-129. *)
Definition draw_frame_overlays (image0 : image) (frames_config : list json)
    : option image :=
  match paint_zones image0 0 frames_config with
  | Some overlay => Some (AddWeighted image0 (dec 7 1) overlay (dec 3 1) pzero)
  | None => None
  end.

(** [FrameEditorGUI.draw_frame_overlay(image, frame_data, is_selected)],
    [frame_constructor_GUI.py] lines 513-543.  The Python method paints
    [image] in place; the painted raster is returned here. *)
Definition draw_frame_overlay (image0 : image) (frame_data : json) (is_selected : bool)
    : option image :=
  match zone_points frame_data (JInt 0), dict_get_default "color" white frame_data,
        dict_get_default "name" (JStr "Unnamed") frame_data with
  | Some points, Some color, Some name =>
      let line_color := if is_selected then yellow else color in
      let thickness := if is_selected then 4 else 2 in
      if valid_color line_color && valid_color color then
        let image1 := Polylines image0 points true line_color thickness in
        let overlay := FillPoly image1 points color in
        let image2 := AddWeighted overlay (dec 3 1) image1 (dec 7 1) pzero in
        match label_pos points, as_text name with
        | Some pos, Some text =>
            let image3 := PutText image2 text pos (dec 7 1) white 2 in
            Some (PutText image3 text pos (dec 7 1) black 1)
        | _, _ => None
        end
      else None
  | _, _, _ => None
  end.

(** The loop of [update_frame_display], lines 489-490: every zone is drawn
    in turn on the same display frame. *)
Fixpoint draw_all (display_frame : image) (i : Z) (selected : Z) (frames_data : list json)
    : option image :=
  match frames_data with
  | [] => Some display_frame
  | frame_data :: rest =>
      match draw_frame_overlay display_frame frame_data (i =? selected) with
      | Some display_frame' => draw_all display_frame' (i + 1) selected rest
      | None => None
      end
  end.

End Compositors.

(** *** Zone records the compositors can draw

    A record with its five fields: two points of numbers, a number for the
    rotation, a colour OpenCV accepts and a string for the name. *)
Definition well_formed (zone : json) : bool :=
  match dict_item "top_left" zone, dict_item "bottom_right" zone,
        dict_item "rotation" zone, dict_item "color" zone, dict_item "name" zone with
  | Some tl, Some br, Some rot, Some color, Some (JStr _) =>
      match as_point tl, as_point br, as_num rot with
      | Some _, Some _, Some _ => valid_color color
      | _, _, _ => false
      end
  | _, _, _, _, _ => false
  end.

(** *** The compositor as the specification words it (section 4.3)

    Outlines go on the output buffer, fills on a separate working copy of
    the frame, one blend after all zones, labels after the blend. *)

Definition zone_geometry (m : libm) (zone : json) : option (list (Z * Z) * json * string * (Z * Z)) :=
  match zone_points m zone (JInt 0), dict_get "color" zone, dict_get "name" zone with
  | Some points, Some color, Some (JStr name) =>
      match label_pos points with
      | Some pos => Some (points, color, name, pos)
      | None => None
      end
  | _, _, _ => None
  end.

Fixpoint spec_outlines (m : libm) (out : image) (i selected : Z) (zones : list json) : option image :=
  match zones with
  | [] => Some out
  | z :: rest =>
      match zone_geometry m z with
      | Some (points, color, _, _) =>
          let out' := if i =? selected then Polylines out points true yellow 4
                      else Polylines out points true color 2 in
          spec_outlines m out' (i + 1) selected rest
      | None => None
      end
  end.

Fixpoint spec_fills (m : libm) (work : image) (zones : list json) : option image :=
  match zones with
  | [] => Some work
  | z :: rest =>
      match zone_geometry m z with
      | Some (points, color, _, _) => spec_fills m (FillPoly work points color) rest
      | None => None
      end
  end.

Fixpoint spec_labels (m : libm) (out : image) (zones : list json) : option image :=
  match zones with
  | [] => Some out
  | z :: rest =>
      match zone_geometry m z with
      | Some (_, _, name, pos) =>
          spec_labels m (PutText (PutText out name pos (dec 7 1) white 2)
                                 name pos (dec 7 1) black 1) rest
      | None => None
      end
  end.

Definition composite_spec (m : libm) (frame : image) (zones : list json) (selected : Z)
    : option image :=
  match spec_outlines m frame 0 selected zones, spec_fills m frame zones with
  | Some outlined, Some filled =>
      spec_labels m (AddWeighted outlined (dec 7 1) filled (dec 3 1) pzero) zones
  | _, _ => None
  end.

(** *** Reading a call history

    How many calls of each kind lie behind a raster.  The two operands of a
    blend share the history of the frame they were copied from, so the
    longer of the two histories is counted. *)
Fixpoint blend_calls (img : image) : nat :=
  match img with
  | Raw _ => 0
  | Resize s _ _ => blend_calls s
  | Polylines s _ _ _ _ => blend_calls s
  | FillPoly s _ _ => blend_calls s
  | PutText s _ _ _ _ _ => blend_calls s
  | AddWeighted a _ b _ _ => S (Nat.max (blend_calls a) (blend_calls b))
  end.

Fixpoint polylines_calls (img : image) : nat :=
  match img with
  | Raw _ => 0
  | Resize s _ _ => polylines_calls s
  | Polylines s _ _ _ _ => S (polylines_calls s)
  | FillPoly s _ _ => polylines_calls s
  | PutText s _ _ _ _ _ => polylines_calls s
  | AddWeighted a _ b _ _ => Nat.max (polylines_calls a) (polylines_calls b)
  end.

Fixpoint fill_calls (img : image) : nat :=
  match img with
  | Raw _ => 0
  | Resize s _ _ => fill_calls s
  | Polylines s _ _ _ _ => fill_calls s
  | FillPoly s _ _ => S (fill_calls s)
  | PutText s _ _ _ _ _ => fill_calls s
  | AddWeighted a _ b _ _ => Nat.max (fill_calls a) (fill_calls b)
  end.

Fixpoint text_calls (img : image) : nat :=
  match img with
  | Raw _ => 0
  | Resize s _ _ => text_calls s
  | Polylines s _ _ _ _ => text_calls s
  | FillPoly s _ _ => text_calls s
  | PutText s _ _ _ _ _ => S (text_calls s)
  | AddWeighted a _ b _ _ => Nat.max (text_calls a) (text_calls b)
  end.

(** The polygons outlined on an image, first drawn first; the operands of a
    blend are read one after the other. *)
Fixpoint outlines (img : image) : list (list (Z * Z)) :=
  match img with
  | Raw _ => []
  | Resize s _ _ => outlines s
  | Polylines s pts _ _ _ => outlines s ++ [pts]
  | FillPoly s _ _ => outlines s
  | PutText s _ _ _ _ _ => outlines s
  | AddWeighted a _ b _ _ => outlines a ++ outlines b
  end.

(** The label strokes drawn last, after every other call. *)
Fixpoint texts_on_top (img : image) : nat :=
  match img with
  | PutText s _ _ _ _ _ => S (texts_on_top s)
  | _ => 0
  end.

Fixpoint strip_labels (img : image) : image :=
  match img with
  | PutText s _ _ _ _ _ => strip_labels s
  | _ => img
  end.

(** The composition the specification describes, read off a call history
    for [n] zones: under the labels lies one blend; its operand weighted 0.7
    carries the [n] outlines, its operand weighted 0.3 the [n] fills; it is
    the only blend, and the [2 n] label strokes come after it. *)
Definition meets_description (n : nat) (result : image) : bool :=
  match strip_labels result with
  | AddWeighted a alpha b beta _ =>
      let '(outlined, filled) := if same alpha (dec 7 1) then (a, b) else (b, a) in
      (polylines_calls outlined =? n)%nat
      && (fill_calls filled =? n)%nat
      && (blend_calls result =? 1)%nat
      && (texts_on_top result =? 2 * n)%nat
  | _ => false
  end.

End Overlay.

(** ** Loading the configuration in the player ([main.py], lines 136-171) *)

Module Config.
Import Binary64 Json Colors.

(** What [open] followed by [json.load] yields. *)
Inductive file_read : Type :=
  | NoSuchFile
  | BadJson
  | Parsed (doc : json).

(** A call that returns, or raises an exception its caller does not catch. *)
Inductive outcome (A : Type) : Type :=
  | Returned (a : A)
  | Raised.
Arguments Returned {A} a.
Arguments Raised {A}.

(** [frame.get('color') is None]. *)
Definition needs_color (frame : json) : option bool :=
  match dict_get "color" frame with
  | Some JNull => Some true
  | Some _ => Some false
  | None => None
  end.

(** The first loop, lines 150-152. *)
Fixpoint colors_needed (frames : list json) : option (list json) :=
  match frames with
  | [] => Some []
  | frame :: rest =>
      match needs_color frame, colors_needed rest with
      | Some true, Some l => Some (frame :: l)
      | Some false, Some l => Some l
      | _, _ => None
      end
  end.

Definition color_json (c : list Z) : json := JArr (map JInt c).

(** The second loop, lines 159-162, with its running [color_index]. *)
Fixpoint assign_colors (frames : list json) (auto_colors : list (list Z))
    (color_index : nat) : option (list json) :=
  match frames with
  | [] => Some []
  | frame :: rest =>
      match needs_color frame with
      | Some true =>
          match nth_error auto_colors color_index with
          | Some c =>
              match dict_set "color" (color_json c) frame,
                    assign_colors rest auto_colors (S color_index) with
              | Some frame', Some rest' => Some (frame' :: rest')
              | _, _ => None
              end
          | None => None
          end
      | Some false =>
          match assign_colors rest auto_colors color_index with
          | Some rest' => Some (frame :: rest')
          | None => None
          end
      | None => None
      end
  end.

(** Lines 146-162 on the value of [config['frames']].  The dictionaries of
    the list are updated in place, so the list [config] holds is the
    updated one. *)
Definition process_frames (frames : json) : option json :=
  match iterate frames with
  | Some items =>
      match colors_needed items with
      | Some [] => Some frames
      | Some needed =>
          match generate_colors (List.length needed) with
          | Some auto_colors =>
              match assign_colors items auto_colors 0 with
              | Some items' =>
                  Some (match frames with JArr _ => JArr items' | _ => frames end)
              | None => None
              end
          | None => None
          end
      | None => None
      end
  | None => None
  end.

Definition load_config (file : file_read) : outcome (option json) :=
  match file with
  | NoSuchFile => Returned None
  | BadJson => Returned None
  | Parsed config =>
      match contains "frames" config with
      | Some true =>
          match dict_item "frames" config with
          | Some frames =>
              match process_frames frames with
              | Some frames' =>
                  match dict_set "frames" frames' config with
                  | Some config' => Returned (Some config')
                  | None => Raised
                  end
              | None => Raised
              end
          | None => Raised
          end
      | Some false => Returned (Some config)
      | None => Raised
      end
  end.

(** *** The assignment as the specification words it *)

(** The batch generator as the specification words it (section 4.2, item
    2): hue [i / count], saturation 0.8 or 1.0 by the parity of [i], value
    0.9, 1.0, 1.0 by [i mod 3]. *)
Definition batch_formula (count i : Z) : option (list Z) :=
  hsv_color (int_truediv i count)
            (if Z.even i then dec 8 1 else one)
            (if i mod 3 =? 0 then dec 9 1 else one).

Definition colorless (frame : json) : bool :=
  match needs_color frame with
  | Some true => true
  | _ => false
  end.

(** How many of the first [j] zones have no colour: the place of zone [j]
    in the colourless subset. *)
Definition rank (frames : list json) (j : nat) : nat :=
  List.length (filter colorless (firstn j frames)).

End Config.

(** ** The zone editor ([frame_constructor_GUI.py]) *)

Module Editor.
Import Binary64 Json Colors.

(** *** Python list indexing *)

(** The position [l[i]] denotes: negative indices count from the end,
    [None] is [IndexError]. *)
Definition py_index {A : Type} (l : list A) (i : Z) : option nat :=
  let n := Z.of_nat (List.length l) in
  if (0 <=? i) && (i <? n) then Some (Z.to_nat i)
  else if (- n <=? i) && (i <? 0) then Some (Z.to_nat (i + n))
  else None.

Fixpoint remove_nth {A : Type} (n : nat) (l : list A) {struct l} : list A :=
  match l, n with
  | [], _ => []
  | _ :: rest, O => rest
  | x :: rest, S n' => x :: remove_nth n' rest
  end.

Fixpoint replace_nth {A : Type} (n : nat) (y : A) (l : list A) {struct l} : list A :=
  match l, n with
  | [], _ => []
  | _ :: rest, O => y :: rest
  | x :: rest, S n' => x :: replace_nth n' y rest
  end.

(** [del l[i]]. *)
Definition py_del {A : Type} (l : list A) (i : Z) : option (list A) :=
  match py_index l i with
  | Some n => Some (remove_nth n l)
  | None => None
  end.

(** *** The editor's state

    The fields of [FrameEditorGUI] that the operations below read or write.
    [video] is the size of the opened video, [None] when [init_video]
    failed.  [frames_data] is the zone store.  In Python it is the very list
    object stored under [config["frames"]]; [config] is only read again by
    [save_config], after it has stored [frames_data] in it, so the two are
    kept as separate values here. *)
Record editor : Type := {
  config : json;
  frames_data : list json;
  selected_frame_index : Z;
  zoom_factor : float64;
  pan_x : Z;
  pan_y : Z;
  last_mouse_x : Z;
  last_mouse_y : Z;
  is_panning : bool;
  video : option (Z * Z)
}.

Definition with_store (st : editor) (frames : list json) (selected : Z) : editor :=
  {| config := config st; frames_data := frames; selected_frame_index := selected;
     zoom_factor := zoom_factor st; pan_x := pan_x st; pan_y := pan_y st;
     last_mouse_x := last_mouse_x st; last_mouse_y := last_mouse_y st;
     is_panning := is_panning st; video := video st |}.

Definition with_config (st : editor) (c : json) : editor :=
  {| config := c; frames_data := frames_data st;
     selected_frame_index := selected_frame_index st;
     zoom_factor := zoom_factor st; pan_x := pan_x st; pan_y := pan_y st;
     last_mouse_x := last_mouse_x st; last_mouse_y := last_mouse_y st;
     is_panning := is_panning st; video := video st |}.

Definition with_view (st : editor) (zoom : float64) (px py : Z) : editor :=
  {| config := config st; frames_data := frames_data st;
     selected_frame_index := selected_frame_index st;
     zoom_factor := zoom; pan_x := px; pan_y := py;
     last_mouse_x := last_mouse_x st; last_mouse_y := last_mouse_y st;
     is_panning := is_panning st; video := video st |}.

Definition with_mouse (st : editor) (mx my : Z) (panning : bool) : editor :=
  {| config := config st; frames_data := frames_data st;
     selected_frame_index := selected_frame_index st;
     zoom_factor := zoom_factor st; pan_x := pan_x st; pan_y := pan_y st;
     last_mouse_x := mx; last_mouse_y := my;
     is_panning := panning; video := video st |}.

(** The state [__init__] builds from a loaded configuration (lines 28-51):
    none when the configuration is missing or empty.  A ["frames"] entry
    that is not a list is outside this model. *)
Definition init (loaded : option json) (dims : option (Z * Z)) : option editor :=
  match loaded with
  | Some c =>
      if truthy c then
        match dict_get_default "frames" (JArr []) c with
        | Some (JArr frames) =>
            Some {| config := c; frames_data := frames; selected_frame_index := 0;
                    zoom_factor := one; pan_x := 0; pan_y := 0;
                    last_mouse_x := 0; last_mouse_y := 0; is_panning := false;
                    video := dims |}
        | _ => None
        end
      else None
  | None => None
  end.

(** *** Viewport (lines 215-261) *)

Definition zoom_in (st : editor) : editor :=
  with_view st (py_min (fmul (zoom_factor st) (dec 12 1)) (of_int 5)) (pan_x st) (pan_y st).

Definition zoom_out (st : editor) : editor :=
  with_view st (py_max (fdiv (zoom_factor st) (dec 12 1)) (dec 2 1)) (pan_x st) (pan_y st).

Definition reset_zoom (st : editor) : editor := with_view st one 0 0.

Definition on_mouse_wheel (delta : Z) (st : editor) : editor :=
  if 0 <? delta then zoom_in st else zoom_out st.

Definition on_mouse_press (x y : Z) (st : editor) : editor := with_mouse st x y true.

Definition on_mouse_drag (x y : Z) (st : editor) : editor :=
  if is_panning st then
    let dx := x - last_mouse_x st in
    let dy := y - last_mouse_y st in
    with_mouse (with_view st (zoom_factor st) (pan_x st + dx) (pan_y st + dy)) x y true
  else st.

Definition on_mouse_release (st : editor) : editor :=
  with_mouse st (last_mouse_x st) (last_mouse_y st) false.

(** *** Zone store (lines 593-737)

    The calls that refresh widgets and repaint ([update_frame_list],
    [update_frame_controls], [update_frame_display]) do not write the store
    and are left out.  Each operation is a Tk callback: when it raises, Tk
    reports the exception and the event loop goes on with the state the
    callback left behind. *)

Inductive callback : Type :=
  | Done (st : editor)
  | Failed (st : editor).

Definition state_after (r : callback) : editor :=
  match r with
  | Done st => st
  | Failed st => st
  end.

Inductive control : Type :=
  | top_left_x
  | top_left_y
  | bottom_right_x
  | bottom_right_y
  | rotation.

(** The range given to [create_slider_textbox_control] (lines 364-385). *)
Definition control_range (c : control) (st : editor) : Z * Z :=
  let '(width, height) := match video st with Some d => d | None => (800, 600) end in
  match c with
  | top_left_x | bottom_right_x => (0, width)
  | top_left_y | bottom_right_y => (0, height)
  | rotation => (-180, 180)
  end.

Definition select_frame (index : Z) (st : editor) : editor :=
  if (0 <=? index) && (index <? Z.of_nat (List.length (frames_data st)))
  then with_store st (frames_data st) index
  else st.

(** [frame_data[key][axis] = value]. *)
Definition set_coord (key : string) (axis : Z) (value : Z) (frame_data : json)
    : option json :=
  match dict_item key frame_data with
  | Some (JArr items) =>
      match py_index items axis with
      | Some n => dict_set key (JArr (replace_nth n (JInt value) items)) frame_data
      | None => None
      end
  | _ => None
  end.

Definition update_frame_data (c : control) (value : Z) (st : editor) : callback :=
  match py_index (frames_data st) (selected_frame_index st) with
  | Some n =>
      match nth_error (frames_data st) n with
      | Some frame_data =>
          let updated :=
            match c with
            | top_left_x => set_coord "top_left" 0 value frame_data
            | top_left_y => set_coord "top_left" 1 value frame_data
            | bottom_right_x => set_coord "bottom_right" 0 value frame_data
            | bottom_right_y => set_coord "bottom_right" 1 value frame_data
            | rotation => dict_set "rotation" (JInt value) frame_data
            end in
          match updated with
          | Some frame_data' =>
              Done (with_store st (replace_nth n frame_data' (frames_data st))
                               (selected_frame_index st))
          | None => Failed st
          end
      | None => Failed st
      end
  | None => Failed st
  end.

(** The guard shared by the three change handlers:
    [not self.frames_data or self.selected_frame_index >= len(self.frames_data)]. *)
Definition nothing_selected (st : editor) : bool :=
  match frames_data st with
  | [] => true
  | _ => Z.of_nat (List.length (frames_data st)) <=? selected_frame_index st
  end.

Definition on_name_change (text : string) (st : editor) : callback :=
  if nothing_selected st then Done st
  else
    match py_index (frames_data st) (selected_frame_index st) with
    | Some n =>
        match nth_error (frames_data st) n with
        | Some frame_data =>
            match dict_set "name" (JStr text) frame_data with
            | Some frame_data' =>
                Done (with_store st (replace_nth n frame_data' (frames_data st))
                                 (selected_frame_index st))
            | None => Failed st
            end
        | None => Failed st
        end
    | None => Failed st
    end.

Definition on_slider_change (c : control) (value : float64) (st : editor) : callback :=
  if nothing_selected st then Done st
  else
    match py_int value with
    | Some int_value => update_frame_data c int_value st
    | None => Failed st
    end.

(** [entry] is [int(textbox.get())]: [None] when it raises [ValueError],
    which the handler swallows. *)
Definition on_textbox_change (c : control) (entry : option Z) (st : editor) : callback :=
  if nothing_selected st then Done st
  else
    match entry with
    | Some value =>
        let '(min_val, max_val) := control_range c st in
        update_frame_data c (Z.max min_val (Z.min max_val value)) st
    | None => Done st
    end.

Definition add_new_frame (st : editor) : callback :=
  let '(default_width, default_height) :=
    match video st with
    | Some (width, height) => (Z.min 200 (width / 4), Z.min 200 (height / 4))
    | None => (200, 200)
    end in
  let n := List.length (frames_data st) in
  match generate_color_for_frame (Z.of_nat n) with
  | Some color =>
      let new_frame :=
        JObj [ ("name", JStr (String.append "Frame_" (NilZero.string_of_uint (Nat.to_uint (S n)))));
               ("top_left", JArr [JInt 100; JInt 100]);
               ("bottom_right", JArr [JInt (100 + default_width); JInt (100 + default_height)]);
               ("rotation", JInt 0);
               ("color", JArr (map JInt color)) ] in
      let frames := frames_data st ++ [new_frame] in
      Done (with_store st frames (Z.of_nat (List.length frames) - 1))
  | None => Failed st
  end.

(** [confirmed] is the answer to the "Confirm Delete" dialog. *)
Definition delete_frame (confirmed : bool) (st : editor) : callback :=
  match frames_data st with
  | [] => Done st
  | _ =>
      if confirmed then
        match py_del (frames_data st) (selected_frame_index st) with
        | Some frames =>
            let len := Z.of_nat (List.length frames) in
            Done (with_store st frames
                    (if len <=? selected_frame_index st then Z.max 0 (len - 1)
                     else selected_frame_index st))
        | None => Failed st
        end
      else Done st
  end.

(** *** Persistence (lines 66-88, 739-749)

    [json.dump] and [json.load] are taken as a pair of functions between
    documents and file contents. *)

Section Persistence.
Variable text : Type.
Variable json_dumps : json -> text.
Variable json_loads : text -> option json.

(** The files of the working directory, by name. *)
Definition files : Type := string -> option text.

Definition write_file (fs : files) (path : string) (content : text) : files :=
  fun p => if String.eqb p path then Some content else fs p.

Definition load_config (fs : files) (config_path : string) : option json :=
  match fs config_path with
  | Some content => json_loads content
  | None => None
  end.

(** [writable] tells whether [open(config_path, 'w')] succeeds.  The result
    is the returned flag, the editor and the files afterwards. *)
Definition save_config (writable : bool) (st : editor) (fs : files) (config_path : string)
    : bool * editor * files :=
  match dict_set "frames" (JArr (frames_data st)) (config st) with
  | Some config' =>
      let st' := with_config st config' in
      if writable then (true, st', write_file fs config_path (json_dumps config'))
      else (false, st', fs)
  | None => (false, st, fs)
  end.

(** [self.config] is assigned before [self.config.get] can raise. *)
Definition reset_to_original (confirmed : bool) (st : editor) (fs : files) : callback :=
  if confirmed then
    let c := match load_config fs "config.json" with Some c => c | None => JNull end in
    match dict_get_default "frames" (JArr []) c with
    | Some (JArr frames) => Done (with_store (with_config st c) frames 0)
    | _ => Failed (with_config st c)
    end
  else Done st.

End Persistence.

(** *** Notions used to state the properties of the editor *)

(** The selection designates a zone whenever there is one. *)
Definition valid_selection (st : editor) : Prop :=
  0 <= selected_frame_index st
  /\ (frames_data st <> [] ->
      selected_frame_index st < Z.of_nat (List.length (frames_data st))).

(** The operator's actions on the viewport. *)
Inductive view_action : Type :=
  | ZoomIn
  | ZoomOut
  | ResetZoom
  | Wheel (delta : Z)
  | Press (x y : Z)
  | Drag (x y : Z)
  | Release.

Definition act (st : editor) (a : view_action) : editor :=
  match a with
  | ZoomIn => zoom_in st
  | ZoomOut => zoom_out st
  | ResetZoom => reset_zoom st
  | Wheel delta => on_mouse_wheel delta st
  | Press x y => on_mouse_press x y st
  | Drag x y => on_mouse_drag x y st
  | Release => on_mouse_release st
  end.

Definition next_in (z : float64) : float64 := py_min (fmul z (dec 12 1)) (of_int 5).
Definition next_out (z : float64) : float64 := py_max (fdiv z (dec 12 1)) (dec 2 1).

Definition known (z : float64) (levels : list float64) : bool := existsb (same z) levels.

(** The zoom factors reachable from a seed, by exhaustive search. *)
Fixpoint explore (fuel : nat) (work seen : list float64) : list float64 :=
  match fuel with
  | O => seen
  | S fuel' =>
      match work with
      | [] => seen
      | z :: rest =>
          if known z seen then explore fuel' rest seen
          else explore fuel' (next_in z :: next_out z :: rest) (z :: seen)
      end
  end.

(** Every zoom factor the editor can reach from [1.0]: 58 doubles. *)
Definition zoom_levels : list float64 := Eval vm_compute in explore 1000 [one] [].

Definition closed_level (z : float64) : bool :=
  known (next_in z) zoom_levels && known (next_out z) zoom_levels
  && fle (dec 2 1) z && fle z (of_int 5).

End Editor.

(** ** The player ([play_video], [main.py] lines 173-360) *)

Module Player.
Import Binary64 Geometry Json Overlay.

(** *** Python objects

    The zone dictionaries handed to [play_video] are shared, mutable
    objects: what a copy shares with its original matters, so they live in
    a store of objects addressed by position.  A fresh object goes at the
    end of the store. *)

Definition loc : Type := nat.

Inductive pyval : Type :=
  | VNone
  | VBool (b : bool)
  | VInt (z : Z)
  | VFloat (x : float64)
  | VStr (s : string)
  | VRef (l : loc).

Inductive pyobj : Type :=
  | ODict (fields : list (string * pyval))
  | OList (items : list pyval).

Definition heap : Type := list pyobj.

Fixpoint field (k : string) (fields : list (string * pyval)) : option pyval :=
  match fields with
  | [] => None
  | (k', v) :: rest => if String.eqb k k' then Some v else field k rest
  end.

Fixpoint set_field (k : string) (v : pyval) (fields : list (string * pyval))
    : list (string * pyval) :=
  match fields with
  | [] => [(k, v)]
  | (k', v') :: rest =>
      if String.eqb k k' then (k, v) :: rest else (k', v') :: set_field k v rest
  end.

(** A computation on the store that may raise; the store it leaves behind
    is kept in both cases. *)
Definition M (A : Type) : Type := heap -> option A * heap.

Definition ret {A : Type} (a : A) : M A := fun h => (Some a, h).
Definition raise {A : Type} : M A := fun h => (None, h).
Definition bind {A B : Type} (c : M A) (k : A -> M B) : M B :=
  fun h => match c h with
           | (Some a, h') => k a h'
           | (None, h') => (None, h')
           end.

Notation "x <- c ;; k" := (bind c (fun x => k))
  (at level 61, c at next level, right associativity).

Definition lift {A : Type} (o : option A) : M A :=
  match o with
  | Some a => ret a
  | None => raise
  end.

Definition alloc (o : pyobj) : M loc := fun h => (Some (List.length h), h ++ [o]).

Definition load (v : pyval) : M pyobj :=
  fun h => match v with
           | VRef l => (nth_error h l, h)
           | _ => (None, h)
           end.

Definition store (l : loc) (o : pyobj) : M unit :=
  fun h => (Some tt, Editor.replace_nth l o h).

Definition load_dict (v : pyval) : M (list (string * pyval)) :=
  o <- load v ;;
  match o with
  | ODict fields => ret fields
  | OList _ => raise
  end.

Definition load_list (v : pyval) : M (list pyval) :=
  o <- load v ;;
  match o with
  | OList items => ret items
  | ODict _ => raise
  end.

(** [d[k] = v] on the dictionary at [l]. *)
Definition set_item (l : loc) (k : string) (v : pyval) : M unit :=
  fields <- load_dict (VRef l) ;;
  store l (ODict (set_field k v fields)).

(** [json.load] builds a fresh object for every array and object. *)
Fixpoint realize (j : json) (h : heap) {struct j} : pyval * heap :=
  match j with
  | JNull => (VNone, h)
  | JBool b => (VBool b, h)
  | JInt z => (VInt z, h)
  | JFloat x => (VFloat x, h)
  | JStr s => (VStr s, h)
  | JArr items =>
      let '(vs, h1) :=
        (fix go (l : list json) (h : heap) : list pyval * heap :=
           match l with
           | [] => ([], h)
           | x :: rest =>
               let '(v, h') := realize x h in
               let '(vs, h'') := go rest h' in
               (v :: vs, h'')
           end) items h in
      (VRef (List.length h1), h1 ++ [OList vs])
  | JObj fields =>
      let '(kvs, h1) :=
        (fix go (l : list (string * json)) (h : heap) : list (string * pyval) * heap :=
           match l with
           | [] => ([], h)
           | (k, x) :: rest =>
               let '(v, h') := realize x h in
               let '(kvs, h'') := go rest h' in
               ((k, v) :: kvs, h'')
           end) fields h in
      (VRef (List.length h1), h1 ++ [ODict kvs])
  end.

(** The document a value denotes, read through the store. *)
Fixpoint reify (fuel : nat) (h : heap) (v : pyval) : option json :=
  match fuel with
  | O => None
  | S fuel' =>
      match v with
      | VNone => Some JNull
      | VBool b => Some (JBool b)
      | VInt z => Some (JInt z)
      | VFloat x => Some (JFloat x)
      | VStr s => Some (JStr s)
      | VRef l =>
          match nth_error h l with
          | Some (OList items) =>
              option_map JArr (Colors.all_some (map (reify fuel' h) items))
          | Some (ODict fields) =>
              option_map JObj
                (Colors.all_some
                   (map (fun kv => option_map (pair (fst kv)) (reify fuel' h (snd kv)))
                        fields))
          | None => None
          end
      end
  end.

Definition snapshot (h : heap) (v : pyval) : option json := reify (S (List.length h)) h v.

(** *** Scaling the zones for display (lines 269-277) *)

(** [int(frame_config[key][axis] * scale)]. *)
Definition scaled_coord (frame_config : pyval) (key : string) (axis : nat) (scale : float64)
    : M Z :=
  fields <- load_dict frame_config ;;
  point <- lift (field key fields) ;;
  items <- load_list point ;;
  coord <- lift (nth_error items axis) ;;
  match coord with
  | VInt z => lift (py_int (fmul (of_int z) scale))
  | VBool b => lift (py_int (fmul (of_int (if b then 1 else 0)) scale))
  | VFloat x => lift (py_int (fmul x scale))
  | _ => raise
  end.

(** The body of the loop: the copy is a new dictionary with the same
    entries; its two corner entries are rebound to new lists. *)
Definition scale_config (scale_x scale_y : float64) (frame_config : pyval) : M pyval :=
  fields <- load_dict frame_config ;;
  scaled_config <- alloc (ODict fields) ;;
  x1 <- scaled_coord frame_config "top_left" 0 scale_x ;;
  y1 <- scaled_coord frame_config "top_left" 1 scale_y ;;
  top_left <- alloc (OList [VInt x1; VInt y1]) ;;
  _ <- set_item scaled_config "top_left" (VRef top_left) ;;
  x2 <- scaled_coord frame_config "bottom_right" 0 scale_x ;;
  y2 <- scaled_coord frame_config "bottom_right" 1 scale_y ;;
  bottom_right <- alloc (OList [VInt x2; VInt y2]) ;;
  _ <- set_item scaled_config "bottom_right" (VRef bottom_right) ;;
  ret (VRef scaled_config).

Fixpoint scale_all (scale_x scale_y : float64) (frames_config : list pyval)
    : M (list pyval) :=
  match frames_config with
  | [] => ret []
  | frame_config :: rest =>
      scaled_config <- scale_config scale_x scale_y frame_config ;;
      scaled_rest <- scale_all scale_x scale_y rest ;;
      ret (scaled_config :: scaled_rest)
  end.

(** [draw_frame_overlays] reads its zone dictionaries and writes only its
    own copy of the image, so it runs on what the dictionaries denote. *)
Definition draw (m : libm) (display_frame : image) (zones : list pyval) : M image :=
  fun h =>
    match Colors.all_some (map (snapshot h) zones) with
    | Some docs => (draw_frame_overlays m display_frame docs, h)
    | None => (None, h)
    end.

(** Python's truth value of [frames_config]. *)
Definition nonempty (v : pyval) : M bool :=
  match v with
  | VNone => ret false
  | VBool b => ret b
  | VInt z => ret (negb (z =? 0))
  | VFloat x => ret (negb (feq x pzero))
  | VStr s => ret (negb (String.eqb s ""))
  | VRef _ =>
      o <- load v ;;
      match o with
      | OList [] | ODict [] => ret false
      | _ => ret true
      end
  end.

(** *** The playback loop *)

(** What [play_video] is called with, and what it learns from the capture. *)
Record settings : Type := {
  delivered : nat;          (* frames the decoder delivers before it fails *)
  width : Z;
  height : Z;
  window_width : Z;
  window_height : Z;
  frames_config : pyval;
  math : libm
}.

(** The variables of the loop; [position] is the capture's read position
    and [shown] the images passed to [cv2.imshow], latest first. *)
Record player : Type := {
  paused : bool;
  frame_count : Z;
  frame : option image;
  show_overlays : bool;
  position : nat;
  objects : heap;
  shown : list image
}.

Definition start (draw_frames : bool) (h : heap) : player :=
  {| paused := false; frame_count := 0; frame := None; show_overlays := draw_frames;
     position := 0; objects := h; shown := [] |}.

(** [cap.read()]: the next frame and the new position. *)
Definition read (cfg : settings) (pos : nat) : option image * nat :=
  if (pos <? delivered cfg)%nat then (Some (Raw pos), S pos) else (None, pos).

(** Lines 257-283: the display frame, or an exception. *)
Definition render (cfg : settings) (overlays : bool) (frame0 : option image) : M image :=
  display_frame <- lift frame0 ;;
  if negb (window_width cfg =? 0) && negb (window_height cfg =? 0) then
    if (width cfg =? 0) || (height cfg =? 0) then raise
    else
      let scale_x := int_truediv (window_width cfg) (width cfg) in
      let scale_y := int_truediv (window_height cfg) (height cfg) in
      let display_frame := Resize display_frame (window_width cfg) (window_height cfg) in
      some <- (if overlays then nonempty (frames_config cfg) else ret false) ;;
      if (some : bool) then
        zones <- load_list (frames_config cfg) ;;
        scaled_frames_config <- scale_all scale_x scale_y zones ;;
        draw (math cfg) display_frame scaled_frames_config
      else ret display_frame
  else
    some <- (if overlays then nonempty (frames_config cfg) else ret false) ;;
    if (some : bool) then
      zones <- load_list (frames_config cfg) ;;
      draw (math cfg) display_frame zones
    else ret display_frame.

Inductive status : Type :=
  | Running
  | Exited
  | Crashed.

Definition key_q : Z := 113.
Definition key_p : Z := 112.
Definition key_s : Z := 115.
Definition key_r : Z := 114.
Definition key_f : Z := 102.

(** Lines 327-353. *)
Definition handle_key (cfg : settings) (key : Z) (st : player) : status * player :=
  if key =? key_q then (Exited, st)
  else if key =? key_p then
    (Running,
     {| paused := negb (paused st); frame_count := frame_count st; frame := frame st;
        show_overlays := show_overlays st; position := position st;
        objects := objects st; shown := shown st |})
  else if (key =? key_s) && paused st then
    let '(got, pos) := read cfg (position st) in
    (Running,
     {| paused := paused st;
        frame_count := match got with Some _ => frame_count st + 1 | None => frame_count st end;
        frame := got; show_overlays := show_overlays st; position := pos;
        objects := objects st; shown := shown st |})
  else if key =? key_r then
    (Running,
     {| paused := false; frame_count := 0; frame := frame st;
        show_overlays := show_overlays st; position := 0;
        objects := objects st; shown := shown st |})
  else if key =? key_f then
    (Running,
     {| paused := paused st; frame_count := frame_count st; frame := frame st;
        show_overlays := negb (show_overlays st); position := position st;
        objects := objects st; shown := shown st |})
  else (Running, st).

(** One pass of [while True] with the key [cv2.waitKey] returns. *)
Definition iteration (cfg : settings) (key : Z) (st : player) : status * player :=
  let '(ended, st1) :=
    if paused st then (false, st)
    else
      let '(got, pos) := read cfg (position st) in
      (match got with Some _ => false | None => true end,
       {| paused := paused st;
          frame_count := match got with Some _ => frame_count st + 1 | None => frame_count st end;
          frame := got; show_overlays := show_overlays st; position := pos;
          objects := objects st; shown := shown st |}) in
  if (ended : bool) then (Exited, st1)
  else
    match render cfg (show_overlays st1) (frame st1) (objects st1) with
    | (Some display_frame, h) =>
        handle_key cfg key
          {| paused := paused st1; frame_count := frame_count st1; frame := frame st1;
             show_overlays := show_overlays st1; position := position st1;
             objects := h; shown := display_frame :: shown st1 |}
    | (None, h) =>
        (Crashed,
         {| paused := paused st1; frame_count := frame_count st1; frame := frame st1;
            show_overlays := show_overlays st1; position := position st1;
            objects := h; shown := shown st1 |})
    end.

(** The loop over the keys the operator presses, one per displayed frame;
    it stops at the first pass that leaves the loop. *)
Fixpoint run (cfg : settings) (keys : list Z) (st : player) : status * player :=
  match keys with
  | [] => (Running, st)
  | key :: rest =>
      match iteration cfg key st with
      | (Running, st') => run cfg rest st'
      | stopped => stopped
      end
  end.

(** *** Notions used to state what the display path leaves alone *)

(** [h] still holds every object of [h0], unchanged, at the same place. *)
Definition extends (h0 h : heap) : Prop := firstn (List.length h0) h = h0.

(** A computation keeps the objects of [h0] and ends, if it returns, with a
    result satisfying [Q]. *)
Definition keeps {A : Type} (h0 : heap) (c : M A) (Q : A -> Prop) : Prop :=
  forall h, extends h0 h ->
    extends h0 (snd (c h)) /\ forall a, fst (c h) = Some a -> Q a.

End Player.

(** ** Sample data used to exercise the definitions *)

Module Samples.
Import Binary64 Geometry Json Overlay Editor Player.

Definition sample_zone (name : string) (x1 y1 x2 y2 : Z) (color : json) : json :=
  JObj [ ("name", JStr name);
         ("top_left", JArr [JInt x1; JInt y1]);
         ("bottom_right", JArr [JInt x2; JInt y2]);
         ("rotation", JInt 0);
         ("color", color) ].

Definition zone_a : json := sample_zone "A" 50 50 150 150 (JArr [JInt 10; JInt 20; JInt 30]).
Definition zone_b : json := sample_zone "B" 200 100 400 300 (JArr [JInt 0; JInt 0; JInt 255]).

Definition sample_config (frames : list json) : json :=
  JObj [ ("video_path", JStr "sample_video.mp4");
         ("window_width", JInt 800);
         ("window_height", JInt 600);
         ("fps_display", JBool true);
         ("draw_frames", JBool true);
         ("frames", JArr frames) ].

(** Three zones, the first and the last without a colour, and what the
    player's loader makes of them. *)
Definition three_frames : list json :=
  [ sample_zone "A" 50 50 150 150 JNull; zone_b; sample_zone "C" 10 10 20 20 JNull ].

Definition three_frames_loaded : list json :=
  [ sample_zone "A" 50 50 150 150 (JArr [JInt 45; JInt 45; JInt 229]);
    zone_b;
    sample_zone "C" 10 10 20 20 (JArr [JInt 255; JInt 255; JInt 0]) ].

Definition sample_editor (frames : list json) : editor :=
  {| config := sample_config frames; frames_data := frames; selected_frame_index := 0;
     zoom_factor := one; pan_x := 0; pan_y := 0; last_mouse_x := 0; last_mouse_y := 0;
     is_panning := false; video := Some (1600, 1200) |}.

(** A store holding two zones as [json.load] builds them, and a player on
    a video of [n] frames of 1600 x 1200 shown in an 800 x 600 window. *)
Definition sample_store : pyval * heap := realize (JArr [zone_a; zone_b]) [].

Definition sample_settings (n : nat) : settings :=
  {| delivered := n; width := 1600; height := 1200;
     window_width := 800; window_height := 600;
     frames_config := fst sample_store; math := libm_sample |}.

End Samples.

(** * Properties *)

(** ** Exact binary64 arithmetic on half-integers

    Sums, differences and halves of integers below [2^52] in magnitude are
    computed without rounding.  The lemmas follow the rounding procedure of
    [SpecFloat]: a mantissa that is a 53-bit number times a power of two is
    shifted, never rounded. *)

Module Binary64Exact.
Import Binary64.


Lemma digits2_size (p : positive) : digits2_pos p = Pos.size p.
Proof. induction p; simpl; congruence. Qed.

Lemma iter_pos_nat {A} (f : A -> A) (n : positive) (x : A) :
  SpecFloat.iter_pos f n x = Nat.iter (Pos.to_nat n) f x.
Proof.
  revert x. induction n as [n IH|n IH|]; intros x; simpl SpecFloat.iter_pos.
  - rewrite !IH, Pos2Nat.inj_xI.
    replace (S (2 * Pos.to_nat n)) with (S (Pos.to_nat n + Pos.to_nat n))%nat by lia.
    rewrite Nat.iter_succ_r, Nat.iter_add. reflexivity.
  - rewrite !IH, Pos2Nat.inj_xO.
    replace (2 * Pos.to_nat n)%nat with (Pos.to_nat n + Pos.to_nat n)%nat by lia.
    rewrite Nat.iter_add. reflexivity.
  - reflexivity.
Qed.

Lemma pos_iter_xO (p k : positive) : Z.pos (Pos.iter xO p k) = Z.pos p * 2 ^ Z.pos k.
Proof.
  induction k as [|k IH] using Pos.peano_ind.
  - simpl. lia.
  - rewrite Pos.iter_succ, Pos2Z.inj_xO, IH, Pos2Z.inj_succ, Z.pow_succ_r by lia. ring.
Qed.

Lemma size_iter_xO (p k : positive) :
  Z.pos (Pos.size (Pos.iter xO p k)) = Z.pos (Pos.size p) + Z.pos k.
Proof.
  induction k as [|k IH] using Pos.peano_ind.
  - simpl. lia.
  - rewrite Pos.iter_succ. simpl Pos.size. rewrite Pos2Z.inj_succ, IH. lia.
Qed.

Lemma shr_iter_xO (p k : positive) :
  SpecFloat.iter_pos shr_1 k {| shr_m := Z.pos (Pos.iter xO p k); shr_r := false; shr_s := false |}
  = {| shr_m := Z.pos p; shr_r := false; shr_s := false |}.
Proof.
  rewrite iter_pos_nat.
  induction k as [|k IH] using Pos.peano_ind.
  - reflexivity.
  - rewrite Pos2Nat.inj_succ, Nat.iter_succ_r, Pos.iter_succ. exact IH.
Qed.

Lemma fexp_eq (x : Z) : fexp prec emax x = Z.max (x - 53) (-1074).
Proof. reflexivity. Qed.

Lemma size_mul_pow2 (q P : positive) (j : Z) :
  0 <= j -> Z.pos q = Z.pos P * 2 ^ j ->
  Z.pos (Pos.size q) = Z.pos (Pos.size P) + j.
Proof.
  intros Hj Hq. destruct j as [|k|k]; try lia.
  - rewrite Z.pow_0_r, Z.mul_1_r in Hq. injection Hq as ->. lia.
  - rewrite <- pos_iter_xO in Hq. injection Hq as ->. apply size_iter_xO.
Qed.

Lemma bra_exact (s : bool) (q P : positive) (j e : Z) :
  0 <= j -> Z.pos q = Z.pos P * 2 ^ j -> Z.pos (Pos.size P) = 53 ->
  -1074 <= e + j <= 971 ->
  binary_round_aux prec emax s (Z.pos q) e loc_Exact = S754_finite s P (e + j).
Proof.
  intros Hj Hq HP He.
  pose proof (size_mul_pow2 q P j Hj Hq) as Hsz.
  unfold binary_round_aux, shr_fexp. cbn [Zdigits2 shr_record_of_loc].
  rewrite digits2_size, fexp_eq, Hsz, HP.
  replace (Z.max (53 + j + e - 53) (-1074) - e) with j by lia.
  assert (Hshr : shr {| shr_m := Z.pos q; shr_r := false; shr_s := false |} e j
                 = ({| shr_m := Z.pos P; shr_r := false; shr_s := false |}, e + j)).
  { destruct j as [|k|k]; try lia.
    - rewrite Z.pow_0_r, Z.mul_1_r in Hq. injection Hq as ->. cbn [shr]. f_equal. lia.
    - rewrite <- pos_iter_xO in Hq. injection Hq as ->. cbn [shr].
      rewrite shr_iter_xO. reflexivity. }
  rewrite Hshr. cbn [shr_m loc_of_shr_record round_nearest_even Zdigits2 shr_record_of_loc].
  rewrite digits2_size, fexp_eq, HP.
  replace (Z.max (53 + (e + j) - 53) (-1074) - (e + j)) with 0 by lia.
  cbn [shr shr_m].
  replace (e + j <=? emax - prec) with true; [reflexivity|].
  symmetry. apply Z.leb_le. unfold emax, prec. lia.
Qed.

Lemma br_exact (s : bool) (q P : positive) (e E : Z) :
  Z.pos (Pos.size P) = 53 -> -1074 <= E <= 971 ->
  (E <= e /\ Z.pos P = Z.pos q * 2 ^ (e - E)) \/ (e <= E /\ Z.pos q = Z.pos P * 2 ^ (E - e)) ->
  binary_round prec emax s q e = S754_finite s P E.
Proof.
  intros HP HE Hcase. unfold binary_round, shl_align.
  rewrite digits2_size, fexp_eq.
  destruct Hcase as [[Hle Hq]|[Hle Hq]].
  - pose proof (size_mul_pow2 P q (e - E) ltac:(lia) Hq) as Hsz.
    replace (Z.max (Z.pos (Pos.size q) + e - 53) (-1074) - e) with (E - e) by lia.
    destruct (E - e) as [|k|k] eqn:Hk; try lia.
    + assert (e - E = 0) as H0 by lia. rewrite H0, Z.pow_0_r, Z.mul_1_r in Hq.
      injection Hq as ->. replace E with (e + 0) by lia.
      apply bra_exact; try lia.
    + assert (e - E = Z.pos k) as H0 by lia. rewrite H0, <- pos_iter_xO in Hq.
      injection Hq as <-.
      replace (Z.max (Z.pos (Pos.size q) + e - 53) (-1074)) with E by lia.
      rewrite (bra_exact s P P 0 E); try lia. f_equal; lia.
  - pose proof (size_mul_pow2 q P (E - e) ltac:(lia) Hq) as Hsz.
    destruct (Z.max (Z.pos (Pos.size q) + e - 53) (-1074) - e) as [|k|k] eqn:Hk; try lia.
    + replace E with (e + (E - e)) by lia. apply bra_exact; try lia.
    + replace E with (e + (E - e)) by lia. apply bra_exact; try lia.
Qed.

Lemma Zdigits2_abs (h : Z) : Zdigits2 (Z.abs h) = Zdigits2 h.
Proof. destruct h; reflexivity. Qed.

Lemma Zdigits2_log2 (h : Z) : 0 < h -> Zdigits2 h = Z.log2 h + 1.
Proof.
  destruct h as [|p|p]; try lia. intros _. cbn [Zdigits2]. rewrite digits2_size.
  destruct p; cbn [Pos.size Z.log2]; lia.
Qed.

Lemma Zdigits2_bounds (h : Z) : h <> 0 -> Z.abs h < 2 ^ 53 -> 1 <= Zdigits2 h <= 53.
Proof.
  intros Hh Hb. rewrite <- Zdigits2_abs, Zdigits2_log2 by lia.
  pose proof (Z.log2_nonneg (Z.abs h)).
  assert (Z.log2 (Z.abs h) < 53) by (apply Z.log2_lt_pow2; lia). lia.
Qed.

Lemma canon_m_pos (h : Z) :
  h <> 0 -> Z.abs h < 2 ^ 53 -> Z.pos (canon_m h) = Z.abs h * 2 ^ (53 - Zdigits2 h).
Proof.
  intros Hh Hb. pose proof (Zdigits2_bounds h Hh Hb).
  unfold canon_m. rewrite Z2Pos.id; [reflexivity|].
  apply Z.mul_pos_pos; [lia|]. apply Z.pow_pos_nonneg; lia.
Qed.

Lemma canon_m_size (h : Z) :
  h <> 0 -> Z.abs h < 2 ^ 53 -> Z.pos (Pos.size (canon_m h)) = 53.
Proof.
  intros Hh Hb. pose proof (Zdigits2_bounds h Hh Hb) as Hd.
  rewrite <- digits2_size. change (Z.pos (digits2_pos ?p)) with (Zdigits2 (Z.pos p)).
  rewrite canon_m_pos, Zdigits2_log2 by (assumption || (apply Z.mul_pos_pos; [lia|apply Z.pow_pos_nonneg; lia])).
  rewrite Z.log2_mul_pow2 by lia.
  rewrite <- Zdigits2_abs in Hd |- *. rewrite (Zdigits2_log2 (Z.abs h)) in * by lia. lia.
Qed.

Lemma dyadic_scaled (h e j : Z) :
  h <> 0 -> Z.abs h < 2 ^ 53 -> 0 <= j ->
  -1074 <= e + Zdigits2 h - 53 <= 971 ->
  dyadic (h * 2 ^ j) (e - j) = S754_finite (h <? 0) (canon_m h) (e + Zdigits2 h - 53).
Proof.
  intros Hh Hb Hj He. pose proof (Zdigits2_bounds h Hh Hb) as Hd.
  pose proof (canon_m_pos h Hh Hb) as Hc. pose proof (canon_m_size h Hh Hb) as Hs.
  assert (H2 : 0 < 2 ^ j) by (apply Z.pow_pos_nonneg; lia).
  assert (Hq : forall q : positive, Z.pos q = Z.abs h * 2 ^ j -> forall s,
             binary_round prec emax s q (e - j) = S754_finite s (canon_m h) (e + Zdigits2 h - 53)).
  { intros q Hq s. apply br_exact; try assumption.
    destruct (Z_le_gt_dec (e + Zdigits2 h - 53) (e - j)) as [Hle|Hgt].
    - left. split; [assumption|]. rewrite Hc, Hq, <- Z.mul_assoc, <- Z.pow_add_r by lia.
      do 2 f_equal. lia.
    - right. split; [lia|]. rewrite Hq, Hc, <- Z.mul_assoc, <- Z.pow_add_r by lia.
      do 2 f_equal. lia. }
  unfold dyadic, binary_normalize.
  destruct (h * 2 ^ j) as [|q|q] eqn:Hm.
  - apply Z.mul_eq_0 in Hm. lia.
  - assert (0 < h) by nia. replace (h <? 0) with false by (symmetry; apply Z.ltb_ge; lia).
    apply Hq. rewrite <- Hm, Z.abs_eq; lia.
  - assert (h < 0) by nia. replace (h <? 0) with true by (symmetry; apply Z.ltb_lt; lia).
    apply Hq. rewrite Z.abs_neq by lia. lia.
Qed.

Lemma dyadic_canon (h e : Z) :
  h <> 0 -> Z.abs h < 2 ^ 53 -> -1074 <= e + Zdigits2 h - 53 <= 971 ->
  dyadic h e = S754_finite (h <? 0) (canon_m h) (e + Zdigits2 h - 53).
Proof.
  intros Hh Hb He. rewrite <- (dyadic_scaled h e 0) by (assumption || lia).
  f_equal; [rewrite Z.pow_0_r; lia | lia].
Qed.

Lemma dyadic_scale (h e j : Z) :
  Z.abs h < 2 ^ 53 -> 0 <= j -> -1074 <= e + Zdigits2 h - 53 <= 971 ->
  dyadic (h * 2 ^ j) (e - j) = dyadic h e.
Proof.
  intros Hb Hj He. destruct (Z.eq_dec h 0) as [->|Hh]; [reflexivity|].
  rewrite dyadic_scaled, dyadic_canon by assumption. reflexivity.
Qed.

Lemma half_canon (h : Z) :
  h <> 0 -> Z.abs h < 2 ^ 53 ->
  half h = S754_finite (h <? 0) (canon_m h) (Zdigits2 h - 54).
Proof.
  intros Hh Hb. pose proof (Zdigits2_bounds h Hh Hb).
  unfold half. rewrite dyadic_canon by (assumption || lia). f_equal. lia.
Qed.

Lemma of_int_half (n : Z) : Z.abs n < 2 ^ 52 -> of_int n = half (2 * n).
Proof.
  intros Hb. unfold half, of_int. fold (dyadic n 0).
  destruct (Z.eq_dec n 0) as [->|Hn]; [reflexivity|].
  pose proof (Zdigits2_bounds n Hn ltac:(lia)).
  replace (2 * n) with (n * 2 ^ 1) by lia. change (-1) with (0 - 1).
  symmetry. apply dyadic_scale; lia.
Qed.

Lemma shl_align_fst (M : positive) (E ez : Z) :
  ez <= E -> Z.pos (fst (shl_align M E ez)) = Z.pos M * 2 ^ (E - ez).
Proof.
  intros Hle. unfold shl_align. destruct (ez - E) as [|k|k] eqn:Hk; try lia; cbn [fst].
  - replace (E - ez) with 0 by lia. lia.
  - rewrite pos_iter_xO. do 2 f_equal. lia.
Qed.

Lemma cond_Zopp_sign (h x : Z) : 0 < x -> cond_Zopp (h <? 0) (Z.abs h * x) = h * x.
Proof.
  intros Hx. destruct (Z.ltb_spec h 0); cbn [cond_Zopp].
  - rewrite Z.abs_neq by lia. lia.
  - rewrite Z.abs_eq by lia. lia.
Qed.

(** The two mantissas of a sum, aligned on the smaller exponent. *)
Lemma aligned_half (h ez : Z) :
  h <> 0 -> Z.abs h < 2 ^ 53 -> ez <= Zdigits2 h - 54 ->
  cond_Zopp (h <? 0) (Z.pos (fst (shl_align (canon_m h) (Zdigits2 h - 54) ez)))
  = h * 2 ^ (- 1 - ez).
Proof.
  intros Hh Hb Hle. pose proof (Zdigits2_bounds h Hh Hb).
  rewrite shl_align_fst, canon_m_pos by assumption.
  rewrite <- Z.mul_assoc, <- Z.pow_add_r by lia.
  replace (53 - Zdigits2 h + (Zdigits2 h - 54 - ez)) with (- 1 - ez) by lia.
  apply cond_Zopp_sign. apply Z.pow_pos_nonneg; lia.
Qed.

Lemma half_rescale (h ez : Z) :
  Z.abs h < 2 ^ 53 -> ez <= -1 -> -1000 <= ez ->
  binary_normalize prec emax (h * 2 ^ (- 1 - ez)) ez false = half h.
Proof.
  intros Hb H1 H2. unfold half.
  replace ez with (-1 - (-1 - ez)) at 2 by lia.
  apply dyadic_scale; try lia.
  destruct (Z.eq_dec h 0) as [->|Hh]; [cbn; lia|].
  pose proof (Zdigits2_bounds h Hh Hb). lia.
Qed.

Lemma fadd_half (a b : Z) :
  Z.abs a < 2 ^ 53 -> Z.abs b < 2 ^ 53 -> Z.abs (a + b) < 2 ^ 53 ->
  fadd (half a) (half b) = half (a + b).
Proof.
  intros Ha Hb Hab.
  destruct (Z.eq_dec a 0) as [->|Na].
  { destruct (Z.eq_dec b 0) as [->|Nb]; [reflexivity|].
    rewrite Z.add_0_l, (half_canon b) by assumption. reflexivity. }
  destruct (Z.eq_dec b 0) as [->|Nb].
  { rewrite Z.add_0_r, (half_canon a) by assumption. reflexivity. }
  pose proof (Zdigits2_bounds a Na Ha). pose proof (Zdigits2_bounds b Nb Hb).
  rewrite (half_canon a), (half_canon b) by assumption.
  unfold fadd, SFadd. cbv zeta.
  set (ez := Z.min (Zdigits2 a - 54) (Zdigits2 b - 54)).
  rewrite !aligned_half by (assumption || lia).
  rewrite <- Z.mul_add_distr_r. apply half_rescale; lia.
Qed.

Lemma fsub_half (a b : Z) :
  Z.abs a < 2 ^ 53 -> Z.abs b < 2 ^ 53 -> Z.abs (a - b) < 2 ^ 53 ->
  fsub (half a) (half b) = half (a - b).
Proof.
  intros Ha Hb Hab.
  destruct (Z.eq_dec b 0) as [->|Nb].
  { rewrite Z.sub_0_r. destruct (Z.eq_dec a 0) as [->|Na]; [reflexivity|].
    rewrite (half_canon a) by assumption. reflexivity. }
  pose proof (Zdigits2_bounds b Nb Hb).
  destruct (Z.eq_dec a 0) as [->|Na].
  { rewrite Z.sub_0_l, (half_canon b), (half_canon (- b)) by lia.
    cbn [half dyadic binary_normalize fsub SFsub].
    f_equal.
    - destruct (Z.ltb_spec b 0), (Z.ltb_spec (- b) 0); reflexivity || lia.
    - unfold canon_m. rewrite Z.abs_opp. destruct b; reflexivity.
    - destruct b; reflexivity. }
  pose proof (Zdigits2_bounds a Na Ha).
  rewrite (half_canon a), (half_canon b) by assumption.
  unfold fsub, SFsub. cbv zeta.
  set (ez := Z.min (Zdigits2 a - 54) (Zdigits2 b - 54)).
  rewrite !aligned_half by (assumption || lia).
  rewrite <- Z.mul_sub_distr_r. apply half_rescale; lia.
Qed.


Lemma half_has_shape (h : Z) : Z.abs h < 2 ^ 53 -> half_shape h (half h).
Proof.
  intros Hb. destruct (Z.eq_dec h 0) as [->|Hh].
  - now constructor.
  - rewrite half_canon by assumption. pose proof (Zdigits2_bounds h Hh Hb).
    constructor; [assumption | now apply canon_m_size | lia].
Qed.

Lemma fmul_one_normal (s : bool) (M : positive) (E : Z) :
  Z.pos (Pos.size M) = 53 -> -1074 <= E <= 971 ->
  fmul (S754_finite s M E) one = S754_finite s M E.
Proof.
  intros HM HE. unfold fmul, one, SFmul.
  rewrite (bra_exact _ _ M 52 (E + -52)) by lia.
  f_equal; [apply xorb_false_r | lia].
Qed.

Lemma fmul_one_half (h : Z) : Z.abs h < 2 ^ 53 -> fmul (half h) one = half h.
Proof.
  intros Hb. destruct (half_has_shape h Hb) as [_|M E _ HM HE]; [reflexivity|].
  apply fmul_one_normal; [assumption | lia].
Qed.

Lemma div_eucl_pair (a b : Z) : Z.div_eucl a b = (a / b, a mod b).
Proof. unfold Z.div, Z.modulo. destruct (Z.div_eucl a b). reflexivity. Qed.

Lemma fdiv_two_normal (s : bool) (M : positive) (E : Z) :
  Z.pos (Pos.size M) = 53 -> -1072 <= E <= 971 ->
  fdiv (S754_finite s M E) two = S754_finite s M (E - 1).
Proof.
  intros HM HE. unfold fdiv, two, SFdiv, SFdiv_core_binary.
  cbn [Zdigits2]. rewrite digits2_size, HM, fexp_eq.
  change (Z.pos (digits2_pos 4503599627370496)) with 53.
  replace (Z.min (Z.max (53 + E - (53 + -51) - 53) (-1074)) (E - -51)) with (E - 2) by lia.
  replace (E - -51 - (E - 2)) with 53 by lia.
  rewrite Z.shiftl_mul_pow2, div_eucl_pair by lia.
  replace (Z.pos M * 2 ^ 53) with (Z.pos M * 2 * 4503599627370496) by (change (2 ^ 53) with (2 * 4503599627370496); ring).
  rewrite Z.div_mul, Z.mod_mul by discriminate.
  change (new_location 4503599627370496 0) with loc_Exact.
  change (Z.pos M * 2) with (Z.pos (M * 2)).
  rewrite (bra_exact _ _ M 1 (E - 2)) by lia.
  f_equal; [apply xorb_false_r | lia].
Qed.

Lemma Zdigits2_double (h : Z) : h <> 0 -> Zdigits2 (2 * h) = Zdigits2 h + 1.
Proof.
  intros Hh. destruct h as [|p|p]; try contradiction;
    cbn [Z.mul Pos.mul Zdigits2 digits2_pos]; apply Pos2Z.inj_succ.
Qed.

Lemma canon_m_double (h : Z) :
  h <> 0 -> Z.abs h < 2 ^ 52 -> canon_m (2 * h) = canon_m h.
Proof.
  intros Hh Hb. pose proof (Zdigits2_bounds (2 * h) ltac:(lia) ltac:(lia)) as Hd.
  unfold canon_m. rewrite Zdigits2_double in Hd |- * by assumption.
  f_equal. rewrite Z.abs_mul. change (Z.abs 2) with 2.
  replace (53 - Zdigits2 h) with (Z.succ (53 - (Zdigits2 h + 1))) by lia.
  rewrite Z.pow_succ_r by lia. ring.
Qed.

Lemma half_double (h : Z) :
  h <> 0 -> Z.abs h < 2 ^ 52 ->
  half (2 * h) = S754_finite (h <? 0) (canon_m h) (Zdigits2 h - 53).
Proof.
  intros Hh Hb. rewrite half_canon by lia.
  rewrite canon_m_double, Zdigits2_double by assumption.
  f_equal; [|lia].
  destruct (Z.ltb_spec (2 * h) 0), (Z.ltb_spec h 0); reflexivity || lia.
Qed.

Lemma fdiv_two_half (h : Z) : Z.abs h < 2 ^ 52 -> fdiv (half (2 * h)) two = half h.
Proof.
  intros Hb. destruct (Z.eq_dec h 0) as [->|Hh]; [reflexivity|].
  pose proof (Zdigits2_bounds h Hh ltac:(lia)).
  rewrite half_double, (half_canon h) by lia.
  rewrite fdiv_two_normal by (try apply canon_m_size; lia).
  f_equal. lia.
Qed.

Lemma cond_Zopp_abs (h : Z) : cond_Zopp (h <? 0) (Z.abs h) = h.
Proof. destruct (Z.ltb_spec h 0); cbn [cond_Zopp]; lia. Qed.

Lemma trunc_half_double (n : Z) : Z.abs n < 2 ^ 52 -> trunc (half (2 * n)) = Some n.
Proof.
  intros Hb. destruct (Z.eq_dec n 0) as [->|Hn]; [reflexivity|].
  pose proof (Zdigits2_bounds (2 * n) ltac:(lia) ltac:(lia)) as Hd.
  rewrite Zdigits2_double in Hd by assumption.
  rewrite half_double by assumption. cbn [trunc].
  destruct (Z.leb_spec 0 (Zdigits2 n - 53)) as [H0|H0]; [lia|].
  rewrite canon_m_pos by lia.
  replace (- (Zdigits2 n - 53)) with (53 - Zdigits2 n) by lia.
  rewrite Z.div_mul by (apply Z.pow_nonzero; lia).
  now rewrite cond_Zopp_abs.
Qed.


End Binary64Exact.

(** ** Dictionaries *)

Module JsonFacts.
Import Json.

Lemma lookup_assoc_set (k : string) (v : json) (fields : list (string * json)) :
  lookup k (assoc_set k v fields) = Some v.
Proof.
  induction fields as [|[k' v'] rest IH]; cbn [assoc_set lookup].
  - now rewrite String.eqb_refl.
  - destruct (String.eqb k k') eqn:E; cbn [lookup].
    + now rewrite String.eqb_refl.
    + now rewrite E.
Qed.

Lemma assoc_set_nonempty (k : string) (v : json) (fields : list (string * json)) :
  assoc_set k v fields <> [].
Proof.
  destruct fields as [|[k' v'] rest]; cbn [assoc_set]; [|destruct (String.eqb k k')];
    discriminate.
Qed.

Lemma dict_item_after_set (k : string) (v : json) (d d' : json) :
  dict_set k v d = Some d' -> dict_item k d' = Some v.
Proof.
  destruct d; cbn [dict_set]; try discriminate.
  intros H. injection H as <-. cbn [dict_item]. apply lookup_assoc_set.
Qed.

End JsonFacts.

(** ** Binary64 operations that cannot overflow

    A magnitude bound, [|x| < 2^k], is enough to know that a result is a
    number: rounding raises the bound by one at most. *)

Module Binary64Bounds.
Import Binary64 Binary64Exact.

Lemma Zdigits2_nonneg (m : Z) : 0 <= Zdigits2 m.
Proof. destruct m; cbn [Zdigits2]; lia. Qed.

Lemma Zdigits2_pos (m : Z) : 0 < m -> 1 <= Zdigits2 m.
Proof. destruct m; cbn [Zdigits2]; lia. Qed.

Lemma Zdigits2_below (z k : Z) : 0 <= k -> Z.abs z < 2 ^ k -> Zdigits2 z <= k.
Proof.
  intros Hk Hz. destruct (Z.eq_dec z 0) as [->|Hn]; [cbn; lia|].
  rewrite <- Zdigits2_abs, Zdigits2_log2 by lia.
  assert (Z.log2 (Z.abs z) < k) by (apply Z.log2_lt_pow2; lia). lia.
Qed.

Lemma Zdigits2_le (a b : Z) : 0 <= a <= b -> Zdigits2 a <= Zdigits2 b.
Proof.
  intros [Ha Hab]. destruct (Z.eq_dec a 0) as [->|Na]; [apply Zdigits2_nonneg|].
  rewrite !Zdigits2_log2 by lia. pose proof (Z.log2_le_mono a b Hab). lia.
Qed.

Lemma Zdigits2_succ (m : Z) : 0 <= m -> Zdigits2 (m + 1) <= Zdigits2 m + 1.
Proof.
  intros Hm. destruct (Z.eq_dec m 0) as [->|Nm]; [cbn; lia|].
  replace (m + 1) with (Z.succ m) by lia.
  rewrite !Zdigits2_log2 by lia. pose proof (Z.log2_succ_le m). lia.
Qed.

Lemma Zdigits2_mul (a b : Z) : 0 < a -> 0 < b -> Zdigits2 (a * b) <= Zdigits2 a + Zdigits2 b.
Proof.
  intros Ha Hb. rewrite !Zdigits2_log2 by nia.
  pose proof (Z.log2_mul_above a b ltac:(lia) ltac:(lia)). lia.
Qed.

Lemma Zdigits2_shift (a j : Z) : 0 < a -> 0 <= j -> Zdigits2 (a * 2 ^ j) = Zdigits2 a + j.
Proof.
  intros Ha Hj. assert (0 < 2 ^ j) by (apply Z.pow_pos_nonneg; lia).
  rewrite !Zdigits2_log2 by nia. rewrite Z.log2_mul_pow2 by lia. lia.
Qed.

Lemma Zdigits2_div_pow2 (a j : Z) :
  0 < a -> 0 <= j -> 0 < a / 2 ^ j -> Zdigits2 (a / 2 ^ j) = Zdigits2 a - j.
Proof.
  intros Ha Hj Hq. rewrite !Zdigits2_log2 by lia.
  rewrite <- Z.shiftr_div_pow2 by lia. rewrite Z.log2_shiftr by lia.
  assert (2 ^ j <= a).
  { destruct (Z_lt_le_dec a (2 ^ j)) as [Hlt|]; [|assumption].
    rewrite Z.div_small in Hq by lia. lia. }
  assert (j <= Z.log2 a) by (apply Z.log2_le_pow2; lia). lia.
Qed.

Lemma Zdigits2_quot (a b : Z) :
  0 < a -> 0 < b -> 0 < a / b -> Zdigits2 (a / b) <= Zdigits2 a - Zdigits2 b + 1.
Proof.
  intros Ha Hb Hq. rewrite !Zdigits2_log2 by lia.
  pose proof (Z.log2_mul_below (a / b) b Hq Hb).
  assert (b * (a / b) <= a) by (apply Z.mul_div_le; lia).
  pose proof (Z.log2_le_mono ((a / b) * b) a ltac:(lia)). lia.
Qed.

Lemma Zdigits2_add (a b : Z) :
  Zdigits2 (a + b) <= Z.max (Zdigits2 a) (Zdigits2 b) + 1.
Proof.
  assert (Habs : forall z, Zdigits2 z = Zdigits2 (Z.abs z)) by (intros z; now rewrite Zdigits2_abs).
  rewrite (Habs (a + b)), (Habs a), (Habs b).
  destruct (Z.eq_dec (Z.abs (a + b)) 0) as [E|E].
  { rewrite E. pose proof (Zdigits2_nonneg (Z.abs a)). change (Zdigits2 0) with 0. lia. }
  assert (Hle : Z.abs (a + b) <= 2 * Z.max (Z.abs a) (Z.abs b)) by lia.
  etransitivity; [apply Zdigits2_le; split; [lia|exact Hle]|].
  destruct (Z.max_spec (Z.abs a) (Z.abs b)) as [[Hm ->]|[Hm ->]].
  - replace (2 * Z.abs b) with (Z.abs b * 2 ^ 1) by lia.
    rewrite Zdigits2_shift by lia. lia.
  - replace (2 * Z.abs a) with (Z.abs a * 2 ^ 1) by lia.
    rewrite Zdigits2_shift by lia. lia.
Qed.


(** One step of the right shift halves a non-negative mantissa. *)
Lemma shr_1_m (r : shr_record) : 0 <= shr_m r -> shr_m (shr_1 r) = shr_m r / 2.
Proof.
  destruct r as [m rb sb]. cbn [shr_m shr_1]. intros Hm.
  destruct m as [|[p|p|]|p]; cbn [shr_m].
  - reflexivity.
  - rewrite Pos2Z.inj_xI. apply Z.div_unique with (r := 1); lia.
  - rewrite Pos2Z.inj_xO. apply Z.div_unique with (r := 0); lia.
  - reflexivity.
  - lia.
Qed.

Lemma shr_iter_m (n : nat) (r : shr_record) :
  0 <= shr_m r -> shr_m (Nat.iter n shr_1 r) = shr_m r / 2 ^ Z.of_nat n.
Proof.
  intros Hm. induction n as [|n IH].
  - cbn. now rewrite Z.div_1_r.
  - rewrite Nat.iter_succ, shr_1_m.
    + rewrite IH, Nat2Z.inj_succ, Z.pow_succ_r, Z.div_div by lia.
      f_equal. lia.
    + rewrite IH. apply Z.div_pos; [assumption|apply Z.pow_pos_nonneg; lia].
Qed.

(** A right shift keeps [digits + exponent] as long as something is left
    of the mantissa, and ends on the requested exponent. *)
Lemma shr_bound (r : shr_record) (e n : Z) :
  0 <= shr_m r ->
  let '(r', e') := shr r e n in
  0 <= shr_m r'
  /\ (shr_m r' = 0 \/ Zdigits2 (shr_m r') + e' = Zdigits2 (shr_m r) + e)
  /\ (e' = e \/ e' = e + n).
Proof.
  intros Hm. unfold shr. destruct n as [|p|p]; try (split; [assumption|]; split; auto).
  rewrite iter_pos_nat.
  pose proof (shr_iter_m (Pos.to_nat p) r Hm) as Hs. rewrite positive_nat_Z in Hs.
  assert (H2 : 0 < 2 ^ Z.pos p) by (apply Z.pow_pos_nonneg; lia).
  split; [rewrite Hs; apply Z.div_pos; lia|]. split; [|right; reflexivity].
  rewrite Hs. destruct (Z.eq_dec (shr_m r / 2 ^ Z.pos p) 0) as [E|E]; [left; exact E|right].
  assert (0 < shr_m r / 2 ^ Z.pos p) by (pose proof (Z.div_pos (shr_m r) _ Hm H2); lia).
  assert (0 < shr_m r).
  { destruct (Z.eq_dec (shr_m r) 0) as [E0|]; [rewrite E0 in *; cbn in *; lia|lia]. }
  rewrite Zdigits2_div_pow2 by lia. lia.
Qed.

Lemma shr_record_of_loc_m (m : Z) (l : location) : shr_m (shr_record_of_loc m l) = m.
Proof. destruct l as [|[| |]]; reflexivity. Qed.

Lemma shr_fexp_bound (m e k : Z) (l : location) :
  0 <= m -> Zdigits2 m + e <= k -> -1074 <= k ->
  let '(r', e') := shr_fexp prec emax m e l in
  0 <= shr_m r'
  /\ (shr_m r' = 0 \/ Zdigits2 (shr_m r') + e' = Zdigits2 m + e)
  /\ e' <= k.
Proof.
  intros Hm Hk Hlow. unfold shr_fexp.
  pose proof (shr_bound (shr_record_of_loc m l) e
                (fexp prec emax (Zdigits2 m + e) - e)) as H.
  rewrite shr_record_of_loc_m in H. specialize (H Hm).
  destruct (shr _ e _) as [r' e']. destruct H as (H1 & H2 & H3).
  split; [assumption|]. split; [assumption|].
  rewrite fexp_eq in H3. pose proof (Zdigits2_nonneg m). lia.
Qed.

Lemma round_nearest_even_bound (m : Z) (l : location) :
  0 <= m ->
  0 <= round_nearest_even m l
  /\ Zdigits2 (round_nearest_even m l) <= Zdigits2 m + 1.
Proof.
  intros Hm. pose proof (Zdigits2_succ m Hm).
  destruct l as [|[| |]]; cbn [round_nearest_even]; try (split; lia).
  destruct (Z.even m); split; lia.
Qed.

Lemma bounded_by_le (k k' : Z) (x : float64) : bounded_by k x -> k <= k' -> bounded_by k' x.
Proof. destruct x; cbn [bounded_by]; auto; lia. Qed.

(** Rounding a mantissa and an exponent within the bound gives a number
    within the bound plus one. *)
Lemma bra_bounded (s : bool) (m e k : Z) (l : location) :
  0 <= m -> Zdigits2 m + e <= k -> -1074 <= k <= 971 ->
  bounded_by (k + 1) (binary_round_aux prec emax s m e l).
Proof.
  intros Hm Hk Hr. unfold binary_round_aux.
  pose proof (shr_fexp_bound m e k l Hm Hk ltac:(lia)) as H1.
  destruct (shr_fexp prec emax m e l) as [r1 e1]. destruct H1 as (P1 & D1 & E1).
  destruct (round_nearest_even_bound (shr_m r1) (loc_of_shr_record r1) P1) as [P2 D2].
  set (m2 := round_nearest_even (shr_m r1) (loc_of_shr_record r1)) in *.
  assert (Hk2 : Zdigits2 m2 + e1 <= k + 1).
  { destruct D1 as [Z1|D1]; [rewrite Z1 in D2; cbn [Zdigits2] in D2|]; lia. }
  pose proof (shr_fexp_bound m2 e1 (k + 1) loc_Exact P2 Hk2 ltac:(lia)) as H3.
  destruct (shr_fexp prec emax m2 e1 loc_Exact) as [r3 e3]. destruct H3 as (P3 & D3 & E3).
  destruct (shr_m r3) as [|p|p] eqn:E; [exact I| |lia].
  destruct D3 as [Z3|D3]; [discriminate|].
  pose proof (Zdigits2_pos (Z.pos p) ltac:(lia)).
  replace (e3 <=? emax - prec) with true
    by (symmetry; apply Z.leb_le; unfold emax, prec; lia).
  cbn [bounded_by]. lia.
Qed.

Lemma br_bounded (s : bool) (p : positive) (e k : Z) :
  Zdigits2 (Z.pos p) + e <= k -> -1074 <= k <= 971 ->
  bounded_by (k + 1) (binary_round prec emax s p e).
Proof.
  intros Hk Hr. unfold binary_round, shl_align.
  destruct (fexp prec emax (Z.pos (digits2_pos p) + e) - e) as [|j|j] eqn:Ej;
    try (apply bra_bounded; [lia|exact Hk|exact Hr]).
  apply bra_bounded; [lia| |exact Hr].
  rewrite pos_iter_xO, Zdigits2_shift by lia.
  change (Zdigits2 (Z.pos p)) with (Z.pos (digits2_pos p)) in Hk |- *. lia.
Qed.

Lemma bn_bounded (z e k : Z) :
  Zdigits2 z + e <= k -> -1074 <= k <= 971 ->
  bounded_by (k + 1) (binary_normalize prec emax z e false).
Proof.
  intros Hk Hr. destruct z as [|p|p]; cbn [binary_normalize]; [exact I| |];
    apply br_bounded; assumption.
Qed.

Lemma of_int_bounded (z : Z) : Zdigits2 z <= 970 -> bounded_by (Zdigits2 z + 1) (of_int z).
Proof.
  intros Hz. pose proof (Zdigits2_nonneg z). unfold of_int. apply bn_bounded; lia.
Qed.

Lemma fmul_bounded (a b : Z) (x y : float64) :
  bounded_by a x -> bounded_by b y -> -1074 <= a + b <= 971 ->
  bounded_by (a + b + 1) (fmul x y).
Proof.
  destruct x as [sx|sx| |sx mx ex], y as [sy|sy| |sy my ey]; cbn [bounded_by];
    try contradiction; try (intros; exact I).
  intros Hx Hy Hr. unfold fmul, SFmul. apply bra_bounded; [lia| |exact Hr].
  rewrite Pos2Z.inj_mul.
  pose proof (Zdigits2_mul (Z.pos mx) (Z.pos my) ltac:(lia) ltac:(lia)). lia.
Qed.

Lemma aligned_digits (m : positive) (e ez : Z) :
  ez <= e -> Zdigits2 (Z.pos (fst (shl_align m e ez))) + ez = Zdigits2 (Z.pos m) + e.
Proof.
  intros Hle. rewrite shl_align_fst by assumption.
  rewrite Zdigits2_shift by lia. lia.
Qed.

Lemma cond_Zopp_digits (s : bool) (z : Z) : Zdigits2 (cond_Zopp s z) = Zdigits2 z.
Proof. destruct s, z; reflexivity. Qed.

Lemma fadd_bounded (a b : Z) (x y : float64) :
  bounded_by a x -> bounded_by b y -> -1074 <= Z.max a b + 1 <= 971 ->
  bounded_by (Z.max a b + 2) (fadd x y).
Proof.
  destruct x as [sx|sx| |sx mx ex], y as [sy|sy| |sy my ey]; cbn [bounded_by];
    try contradiction; intros Hx Hy Hr.
  - unfold fadd, SFadd. destruct sx, sy; exact I.
  - cbn [fadd SFadd bounded_by]. lia.
  - cbn [fadd SFadd bounded_by]. lia.
  - unfold fadd, SFadd. cbv zeta.
    replace (Z.max a b + 2) with (Z.max a b + 1 + 1) by lia.
    apply bn_bounded; [|exact Hr].
    change (IntDef.Z.min ex ey) with (Z.min ex ey).
    pose proof (Zdigits2_add
                  (cond_Zopp sx (Z.pos (fst (shl_align mx ex (Z.min ex ey)))))
                  (cond_Zopp sy (Z.pos (fst (shl_align my ey (Z.min ex ey)))))) as Hd.
    rewrite !cond_Zopp_digits in Hd.
    pose proof (aligned_digits mx ex (Z.min ex ey) ltac:(lia)).
    pose proof (aligned_digits my ey (Z.min ex ey) ltac:(lia)). lia.
Qed.

Lemma fsub_bounded (a b : Z) (x y : float64) :
  bounded_by a x -> bounded_by b y -> -1074 <= Z.max a b + 1 <= 971 ->
  bounded_by (Z.max a b + 2) (fsub x y).
Proof.
  destruct x as [sx|sx| |sx mx ex], y as [sy|sy| |sy my ey]; cbn [bounded_by];
    try contradiction; intros Hx Hy Hr.
  - unfold fsub, SFsub. destruct sx, sy; exact I.
  - cbn [fsub SFsub bounded_by]. lia.
  - cbn [fsub SFsub bounded_by]. lia.
  - unfold fsub, SFsub. cbv zeta.
    replace (Z.max a b + 2) with (Z.max a b + 1 + 1) by lia.
    apply bn_bounded; [|exact Hr].
    change (IntDef.Z.min ex ey) with (Z.min ex ey).
    pose proof (Zdigits2_add
                  (cond_Zopp sx (Z.pos (fst (shl_align mx ex (Z.min ex ey)))))
                  (- cond_Zopp sy (Z.pos (fst (shl_align my ey (Z.min ex ey)))))) as Hd.
    replace (Zdigits2 (- cond_Zopp sy (Z.pos (fst (shl_align my ey (Z.min ex ey))))))
      with (Zdigits2 (cond_Zopp sy (Z.pos (fst (shl_align my ey (Z.min ex ey))))))
      in Hd by (destruct (cond_Zopp sy _); reflexivity).
    rewrite !cond_Zopp_digits in Hd. rewrite <- Z.add_opp_r.
    pose proof (aligned_digits mx ex (Z.min ex ey) ltac:(lia)).
    pose proof (aligned_digits my ey (Z.min ex ey) ltac:(lia)). lia.
Qed.

(** Division by a number of magnitude at least [2^(c-1)]. *)
Lemma fdiv_bounded (a c : Z) (x : float64) (sy : bool) (my : positive) (ey : Z) :
  bounded_by a x -> c <= Zdigits2 (Z.pos my) + ey -> -1074 <= a - c + 1 <= 971 ->
  bounded_by (a - c + 2) (fdiv x (S754_finite sy my ey)).
Proof.
  destruct x as [sx|sx| |sx mx ex]; cbn [bounded_by]; try contradiction; intros Hx Hy Hr.
  - exact I.
  - unfold fdiv, SFdiv, SFdiv_core_binary.
    set (d1 := Zdigits2 (Z.pos mx)) in *. set (d2 := Zdigits2 (Z.pos my)) in *.
    set (e' := Z.min (fexp prec emax (d1 + ex - (d2 + ey))) (ex - ey)).
    assert (Hs : 0 <= ex - ey - e') by (unfold e'; lia).
    assert (Hm' : match ex - ey - e' with
                  | Z.pos _ => Z.shiftl (Z.pos mx) (ex - ey - e')
                  | 0 => Z.pos mx
                  | Z.neg _ => 0
                  end = Z.pos mx * 2 ^ (ex - ey - e')).
    { destruct (ex - ey - e') as [|p|p] eqn:Es; [lia| |lia].
      now rewrite Z.shiftl_mul_pow2 by lia. }
    rewrite Hm', div_eucl_pair.
    set (m' := Z.pos mx * 2 ^ (ex - ey - e')).
    assert (H2 : 0 < 2 ^ (ex - ey - e')) by (apply Z.pow_pos_nonneg; lia).
    assert (Hm'pos : 0 < m') by (unfold m'; nia).
    assert (Hq : 0 <= m' / Z.pos my) by (apply Z.div_pos; lia).
    replace (a - c + 2) with (a - c + 1 + 1) by lia.
    apply bra_bounded; [exact Hq| |exact Hr].
    destruct (Z.eq_dec (m' / Z.pos my) 0) as [E|E].
    + rewrite E. change (Zdigits2 0) with 0.
      assert (e' <= fexp prec emax (d1 + ex - (d2 + ey))) by (unfold e'; lia).
      rewrite fexp_eq in *. lia.
    + pose proof (Zdigits2_quot m' (Z.pos my) Hm'pos ltac:(lia) ltac:(lia)) as Hd.
      unfold m' in Hd at 2. rewrite Zdigits2_shift in Hd by lia.
      fold d1 d2 in Hd. lia.
Qed.

(** The integer part of a bounded number exists and is bounded. *)
Lemma py_int_bounded (k : Z) (x : float64) :
  bounded_by k x -> 0 <= k -> exists t, py_int x = Some t /\ Zdigits2 t <= k.
Proof.
  destruct x as [sx|sx| |sx mx ex]; cbn [bounded_by]; try contradiction; intros Hx Hk.
  - exists 0. split; [reflexivity|cbn; lia].
  - unfold py_int. cbn [trunc]. eexists. split; [reflexivity|].
    rewrite cond_Zopp_digits. destruct (Z.leb_spec 0 ex).
    + rewrite Zdigits2_shift by lia. exact Hx.
    + assert (H2 : 0 < 2 ^ (- ex)) by (apply Z.pow_pos_nonneg; lia).
      destruct (Z.eq_dec (Z.pos mx / 2 ^ (- ex)) 0) as [E|E]; [rewrite E; exact Hk|].
      pose proof (Z.div_pos (Z.pos mx) _ ltac:(lia) H2).
      rewrite Zdigits2_div_pow2 by lia. lia.
Qed.

End Binary64Bounds.
(** ** The colour generators never raise *)

Module ColorsFacts.
Import Binary64 Binary64Exact Binary64Bounds Colors.

Lemma bgr_total (k : Z) (r g b : float64) :
  bounded_by k r -> bounded_by k g -> bounded_by k b -> 0 <= k <= 900 ->
  exists c, bgr (r, g, b) = Some c.
Proof.
  intros Hr Hg Hb Hk. unfold bgr.
  assert (H255 : bounded_by 8 f255) by (cbn; lia).
  destruct (py_int_bounded _ _ (fmul_bounded _ _ _ _ Hr H255 ltac:(lia)) ltac:(lia))
    as (r' & -> & _).
  destruct (py_int_bounded _ _ (fmul_bounded _ _ _ _ Hg H255 ltac:(lia)) ltac:(lia))
    as (g' & -> & _).
  destruct (py_int_bounded _ _ (fmul_bounded _ _ _ _ Hb H255 ltac:(lia)) ltac:(lia))
    as (b' & -> & _).
  now eexists.
Qed.

Lemma hsv_color_total (k : Z) (h s v : float64) :
  bounded_by k h -> bounded_by 1 s -> bounded_by 1 v -> 0 <= k <= 800 ->
  exists c, hsv_color h s v = Some c.
Proof.
  intros Hh Hs Hv Hk. unfold hsv_color, hsv_to_rgb.
  destruct (feq s pzero).
  { apply (bgr_total 1); assumption || lia. }
  assert (H6 : bounded_by 3 six) by (cbn; lia).
  assert (H1 : bounded_by 1 one) by (cbn; lia).
  pose proof (fmul_bounded _ _ _ _ Hh H6 ltac:(lia)) as Hh6.
  destruct (py_int_bounded _ _ Hh6 ltac:(lia)) as (i & -> & Hi).
  pose proof (Zdigits2_nonneg i) as Hi0.
  pose proof (bounded_by_le _ (k + 5) _ (of_int_bounded i ltac:(lia)) ltac:(lia)) as Hoi.
  pose proof (fsub_bounded _ _ _ _ Hh6 Hoi ltac:(lia)) as Hf.
  replace (Z.max (k + 3 + 1) (k + 5) + 2) with (k + 7) in Hf by lia.
  set (f := fsub (fmul h six) (of_int i)) in *.
  assert (Hp : bounded_by (k + 15) (fmul v (fsub one s))).
  { eapply bounded_by_le;
      [apply (fmul_bounded _ _ _ _ Hv (fsub_bounded _ _ _ _ H1 Hs ltac:(lia))); lia|lia]. }
  assert (Hq : bounded_by (k + 15) (fmul v (fsub one (fmul s f)))).
  { pose proof (fmul_bounded _ _ _ _ Hs Hf ltac:(lia)) as A.
    pose proof (fsub_bounded _ _ _ _ H1 A ltac:(lia)) as B.
    eapply bounded_by_le; [apply (fmul_bounded _ _ _ _ Hv B); lia|lia]. }
  assert (Ht : bounded_by (k + 15) (fmul v (fsub one (fmul s (fsub one f))))).
  { pose proof (fsub_bounded _ _ _ _ H1 Hf ltac:(lia)) as A.
    pose proof (fmul_bounded _ _ _ _ Hs A ltac:(lia)) as B.
    pose proof (fsub_bounded _ _ _ _ H1 B ltac:(lia)) as C.
    eapply bounded_by_le; [apply (fmul_bounded _ _ _ _ Hv C); lia|lia]. }
  pose proof (bounded_by_le _ (k + 15) _ Hv ltac:(lia)) as Hv'.
  pose proof (Z.mod_pos_bound i 6 ltac:(lia)) as Hmod.
  destruct (i mod 6 =? 0) eqn:E0; [apply (bgr_total (k + 15)); assumption || lia|].
  destruct (i mod 6 =? 1) eqn:E1; [apply (bgr_total (k + 15)); assumption || lia|].
  destruct (i mod 6 =? 2) eqn:E2; [apply (bgr_total (k + 15)); assumption || lia|].
  destruct (i mod 6 =? 3) eqn:E3; [apply (bgr_total (k + 15)); assumption || lia|].
  destruct (i mod 6 =? 4) eqn:E4; [apply (bgr_total (k + 15)); assumption || lia|].
  destruct (i mod 6 =? 5) eqn:E5; [apply (bgr_total (k + 15)); assumption || lia|].
  apply Z.eqb_neq in E0, E1, E2, E3, E4, E5. lia.
Qed.

(** [i / n] for [0 <= i] and [1 <= n], both below [2^53]. *)
Lemma int_truediv_bounded (i n : Z) :
  Z.abs i < 2 ^ 53 -> 1 <= n < 2 ^ 53 -> bounded_by 55 (int_truediv i n).
Proof.
  intros Hi Hn. unfold int_truediv.
  assert (Hdi : Zdigits2 i <= 53).
  { destruct (Z.eq_dec i 0) as [->|Ni]; [cbn; lia|].
    pose proof (Zdigits2_bounds i Ni Hi). lia. }
  pose proof (Zdigits2_bounds n ltac:(lia) ltac:(lia)) as Hdn.
  pose proof (of_int_bounded i ltac:(lia)) as Hb.
  unfold of_int at 2. fold (dyadic n 0).
  rewrite dyadic_canon by lia.
  pose proof (canon_m_size n ltac:(lia) ltac:(lia)) as Hsz.
  eapply bounded_by_le.
  - apply (fdiv_bounded (Zdigits2 i + 1) (Zdigits2 n)); [exact Hb| |].
    + change (Zdigits2 (Z.pos (canon_m n))) with (Z.pos (digits2_pos (canon_m n))).
      rewrite digits2_size, Hsz. lia.
    + pose proof (Zdigits2_nonneg i). lia.
  - lia.
Qed.

Lemma batch_color_total (n i : Z) :
  0 <= i < 2 ^ 53 -> 1 <= n < 2 ^ 53 -> exists c, batch_color n i = Some c.
Proof.
  intros Hi Hn. unfold batch_color.
  apply (hsv_color_total 55); [apply int_truediv_bounded; lia| | |lia].
  - rewrite Zmod_even. destruct (Z.even i); cbn; lia.
  - pose proof (Z.mod_pos_bound i 3 ltac:(lia)) as Hb.
    assert (i mod 3 = 0 \/ i mod 3 = 1 \/ i mod 3 = 2) as [E|[E|E]] by lia;
      rewrite E; cbn; lia.
Qed.

Lemma all_some_total {A : Type} (l : list (option A)) :
  Forall (fun x => exists a, x = Some a) l -> exists r, all_some l = Some r.
Proof.
  induction 1 as [|x l [a ->] _ [r IH]]; cbn [all_some].
  - now eexists.
  - rewrite IH. now eexists.
Qed.

(** [generate_colors] returns its [n] colours. *)
Lemma generate_colors_total (n : nat) :
  Z.of_nat n < 2 ^ 53 -> exists colors, generate_colors n = Some colors.
Proof.
  intros Hn. unfold generate_colors. apply all_some_total.
  apply Forall_forall. intros x Hx. apply in_map_iff in Hx.
  destruct Hx as (i & <- & Hi). apply in_seq in Hi.
  apply batch_color_total; lia.
Qed.

End ColorsFacts.

(** ** Geometry engine *)

Module GeometryFacts.
Import Binary64 Binary64Exact Geometry.

Lemma in_int32_bounds (z : Z) : in_int32 z = true -> - 2 ^ 31 <= z < 2 ^ 31.
Proof. unfold in_int32. rewrite andb_true_iff, Z.leb_le, Z.ltb_lt. tauto. Qed.

(** The centre of two integer coordinates. *)
Lemma centre_half (u v : Z) :
  Z.abs (u + v) < 2 ^ 52 -> fdiv (of_int (u + v)) (of_int 2) = half (u + v).
Proof.
  intros H. rewrite of_int_half by assumption. apply fdiv_two_half. assumption.
Qed.

(** A corner coordinate relative to the centre. *)
Lemma offset_half (w c : Z) :
  Z.abs w < 2 ^ 50 -> Z.abs c < 2 ^ 50 ->
  fsub (of_int w) (half c) = half (2 * w - c).
Proof.
  intros Hw Hc. rewrite of_int_half by lia. apply fsub_half; lia.
Qed.

(** With [cos_rot = 1] and [sin_rot = +0] the rotation is the identity. *)
Lemma dot_row_identity (m : libm) (a b : Z) :
  Z.abs a < 2 ^ 53 -> Z.abs b < 2 ^ 53 ->
  dot_row (A := binary64 m) one pzero (half a, half b) = (half a, half b).
Proof.
  intros Ha Hb. cbn [dot_row binary64 add mul neg].
  destruct (half_has_shape a Ha) as [_|Ma Ea _ HMa HEa];
    destruct (half_has_shape b Hb) as [_|Mb Eb _ HMb HEb];
    rewrite ?fmul_one_normal by lia.
  - reflexivity.
  - destruct (b <? 0); reflexivity.
  - destruct (a <? 0); reflexivity.
  - destruct (a <? 0), (b <? 0); reflexivity.
Qed.

(** Back from the centre: the stored coordinate, exactly. *)
Lemma recentre (w c : Z) :
  in_int32 w = true -> Z.abs c < 2 ^ 33 ->
  cast_int32 (trunc (fadd (half (2 * w - c)) (half c))) = w.
Proof.
  intros Hw Hc. pose proof (in_int32_bounds w Hw) as Hb.
  rewrite fadd_half by lia.
  replace (2 * w - c + c) with (2 * w) by lia.
  rewrite trunc_half_double by lia. cbn [cast_int32]. now rewrite Hw.
Qed.

Section RotationZero.
Variable m : libm.
Hypothesis cos_zero : libm_cos m pzero = one.
Hypothesis sin_zero : libm_sin m pzero = pzero.

(** C1: with [rotation_degrees = 0], and integer corner values in the range
    of [int32], [get_rotated_rectangle_points] (the same body in the player
    and in the editor) returns the four corners of the box in the order
    top-left, top-right, bottom-right, bottom-left, computed in binary64
    without any rounding; for [(50,50)]-[(150,150)] these are
    [(50,50); (150,50); (150,150); (50,150)]. *)
Theorem rotation_zero_corners (x1 y1 x2 y2 : Z) :
  in_int32 x1 = true -> in_int32 y1 = true ->
  in_int32 x2 = true -> in_int32 y2 = true ->
  get_rotated_rectangle_points (A := binary64 m)
    (NInt x1, NInt y1) (NInt x2, NInt y2) (NInt 0)
  = [(x1, y1); (x2, y1); (x2, y2); (x1, y2)].
Proof.
  intros Hx1 Hy1 Hx2 Hy2.
  pose proof (in_int32_bounds _ Hx1). pose proof (in_int32_bounds _ Hy1).
  pose proof (in_int32_bounds _ Hx2). pose proof (in_int32_bounds _ Hy2).
  unfold get_rotated_rectangle_points.
  cbn [py_add py_half py_sub to_float binary64 of_Z div sub np_radians np_cos np_sin].
  change (fmul (of_int 0) deg2rad) with pzero. rewrite cos_zero, sin_zero.
  rewrite !centre_half by lia. rewrite !offset_half by lia.
  cbn [map]. rewrite !dot_row_identity by lia.
  cbn [map fst snd add astype_int32 binary64].
  rewrite !recentre by (assumption || lia).
  reflexivity.
Qed.

End RotationZero.

Lemma rotation_zero_corners_witness :
  libm_cos libm_sample pzero = one /\ libm_sin libm_sample pzero = pzero /\
  get_rotated_rectangle_points (A := binary64 libm_sample)
    (NInt 50, NInt 50) (NInt 150, NInt 150) (NInt 0)
  = [(50, 50); (150, 50); (150, 150); (50, 150)].
Proof.
  split; [reflexivity|]. split; [reflexivity|].
  apply (rotation_zero_corners libm_sample); reflexivity.
Defined.

(** The integer coordinates of the zone model matter.  A hand-written
    configuration may hold a fractional coordinate; for the double just
    below 1, whose truncation is 0, the centre and the offset each round and
    the corner comes back as 1. *)
Lemma rotation_zero_fractional :
  let x := S754_finite false (2 ^ 53 - 1) (-53) in
  trunc x = Some 0
  /\ get_rotated_rectangle_points (A := binary64 libm_sample)
       (NFloat x, NFloat x) (NInt 3, NInt 3) (NInt 0)
     = [(1, 1); (3, 1); (3, 3); (1, 3)].
Proof. split; vm_compute; reflexivity. Qed.


Section ExactRotation.
Local Open Scope R_scope.

Lemma to_float_py_add (a b : num R) :
  to_float (A := exact) (py_add a b) = to_float (A := exact) a + to_float (A := exact) b.
Proof. destruct a, b; cbn [py_add to_float exact of_Z add]; try reflexivity. apply plus_IZR. Qed.

Lemma radians_full_turn (x : R) : (x + 360) * (PI / 180) = x * (PI / 180) + 2 * INR 1 * PI.
Proof. cbn [INR]. field. Qed.

Lemma radians_half_turn : 180 * (PI / 180) = PI.
Proof. field. Qed.


End ExactRotation.

End GeometryFacts.

(** ** Viewport *)

Module ViewportFacts.
Import Binary64 Json Editor Samples.

Lemma same_eq (x y : float64) : same x y = true -> x = y.
Proof.
  destruct x as [a|a| |a m e], y as [b|b| |b n f]; cbn [same]; try discriminate.
  - intros H. apply eqb_prop in H. congruence.
  - intros H. apply eqb_prop in H. congruence.
  - reflexivity.
  - rewrite !andb_true_iff. intros [[H1 H2] H3].
    apply eqb_prop in H1. apply Pos.eqb_eq in H2. apply Z.eqb_eq in H3. congruence.
Qed.

Lemma known_In (z : float64) (levels : list float64) : known z levels = true -> In z levels.
Proof.
  unfold known. rewrite existsb_exists. intros (y & Hy & Hs).
  apply same_eq in Hs. now subst.
Qed.

Lemma zoom_levels_closed : forallb closed_level zoom_levels = true.
Proof. vm_compute. reflexivity. Qed.

Lemma level_facts (z : float64) :
  In z zoom_levels ->
  In (next_in z) zoom_levels /\ In (next_out z) zoom_levels
  /\ fle (dec 2 1) z = true /\ fle z (of_int 5) = true.
Proof.
  intros Hz. pose proof zoom_levels_closed as Hc.
  rewrite forallb_forall in Hc. specialize (Hc z Hz).
  unfold closed_level in Hc. rewrite !andb_true_iff in Hc.
  destruct Hc as [[[H1 H2] H3] H4]. auto using known_In.
Qed.

Lemma act_keeps_level (st : editor) (a : view_action) :
  In (zoom_factor st) zoom_levels -> In (zoom_factor (act st a)) zoom_levels.
Proof.
  intros Hz. destruct (level_facts _ Hz) as (Hin & Hout & _).
  destruct a; cbn [act]; try assumption.
  - vm_compute. tauto.
  - unfold on_mouse_wheel. destruct (0 <? delta); assumption.
  - unfold on_mouse_drag. destruct (is_panning st); assumption.
Qed.

(** C5: from [zoom_factor = 1.0], whatever the operator does to the
    viewport, the zoom factor stays within [0.2, 5.0]. *)
Theorem zoom_factor_clamped (st : editor) (actions : list view_action) :
  zoom_factor st = one ->
  fle (dec 2 1) (zoom_factor (fold_left act actions st)) = true
  /\ fle (zoom_factor (fold_left act actions st)) (of_int 5) = true.
Proof.
  intros H1.
  assert (Hin : In (zoom_factor st) zoom_levels) by (rewrite H1; vm_compute; tauto).
  clear H1. revert st Hin.
  induction actions as [|a rest IH]; intros st Hin; cbn [fold_left].
  - now apply level_facts.
  - apply IH. now apply act_keeps_level.
Qed.

Lemma zoom_factor_clamped_witness :
  zoom_factor (sample_editor []) = one
  /\ fle (dec 2 1)
       (zoom_factor (fold_left act (repeat ZoomIn 12 ++ repeat ZoomOut 30 ++ [Wheel 120])
                               (sample_editor []))) = true
  /\ fle (zoom_factor (fold_left act (repeat ZoomIn 12 ++ repeat ZoomOut 30 ++ [Wheel 120])
                                 (sample_editor [])))
         (of_int 5) = true.
Proof. split; [reflexivity|]. apply zoom_factor_clamped. reflexivity. Defined.

End ViewportFacts.

(** ** Colour assignment at load time *)

Module ConfigFacts.
Import Binary64 Json Colors Config JsonFacts ColorsFacts Samples.

Lemma batch_color_formula (count i : Z) : batch_color count i = batch_formula count i.
Proof.
  unfold batch_color, batch_formula. f_equal.
  - rewrite Zmod_even. destruct (Z.even i); reflexivity.
  - pose proof (Z.mod_pos_bound i 3 ltac:(lia)) as Hb.
    assert (i mod 3 = 0 \/ i mod 3 = 1 \/ i mod 3 = 2) as [E|[E|E]] by lia;
      rewrite E; reflexivity.
Qed.

Lemma all_some_map {A : Type} (l : list (option A)) (r : list A) :
  all_some l = Some r -> l = map Some r.
Proof.
  revert r. induction l as [|[a|] l IH]; intros r H; cbn [all_some] in H.
  - injection H as <-. reflexivity.
  - destruct (all_some l) as [r'|]; [|discriminate].
    injection H as <-. cbn [map]. f_equal. now apply IH.
  - discriminate.
Qed.

Lemma generate_colors_nth (n : nat) (auto_colors : list (list Z)) :
  generate_colors n = Some auto_colors ->
  List.length auto_colors = n
  /\ forall i c, nth_error auto_colors i = Some c ->
       batch_formula (Z.of_nat n) (Z.of_nat i) = Some c.
Proof.
  unfold generate_colors. intros H. apply all_some_map in H.
  assert (Hlen : List.length auto_colors = n).
  { apply (f_equal (@List.length _)) in H.
    rewrite !length_map, length_seq in H. congruence. }
  split; [assumption|]. intros i c Hi.
  assert (Hlt : (i < n)%nat) by (rewrite <- Hlen; apply nth_error_Some; congruence).
  apply (f_equal (fun l => nth_error l i)) in H.
  rewrite !nth_error_map, Hi in H.
  rewrite nth_error_seq in H.
  destruct (i <? n)%nat eqn:E; [|apply Nat.ltb_ge in E; lia].
  cbn [option_map Nat.add] in H. rewrite batch_color_formula in H. congruence.
Qed.

Lemma colors_needed_count (frames needed : list json) :
  colors_needed frames = Some needed ->
  List.length needed = List.length (filter colorless frames).
Proof.
  revert needed. induction frames as [|frame rest IH]; intros needed H; cbn [colors_needed] in H.
  - injection H as <-. reflexivity.
  - cbn [filter]. unfold colorless at 1.
    destruct (needs_color frame) as [[|]|]; [| |discriminate];
      destruct (colors_needed rest) as [l|]; try discriminate;
      injection H as <-; cbn [List.length]; now rewrite (IH l).
Qed.

Lemma rank_cons (frame : json) (rest : list json) (j : nat) :
  rank (frame :: rest) (S j) = ((if colorless frame then 1 else 0) + rank rest j)%nat.
Proof. unfold rank. cbn [firstn filter]. destruct (colorless frame); reflexivity. Qed.

(** The second loop gives the [k]-th colourless zone the [k]-th colour and
    leaves the other zones as they are. *)
Lemma assign_colors_pointwise (frames : list json) (auto_colors : list (list Z)) :
  forall (k : nat) (frames' : list json),
  assign_colors frames auto_colors k = Some frames' ->
  List.length frames' = List.length frames
  /\ forall j frame, nth_error frames j = Some frame ->
       if colorless frame
       then exists c, nth_error auto_colors (k + rank frames j) = Some c
                      /\ nth_error frames' j = dict_set "color" (color_json c) frame
       else nth_error frames' j = Some frame.
Proof.
  induction frames as [|frame rest IH]; intros k frames' H; cbn [assign_colors] in H.
  - injection H as <-. split; [reflexivity|]. intros [|j] f Hj; discriminate.
  - destruct (needs_color frame) as [[|]|] eqn:En; [| |discriminate].
    + destruct (nth_error auto_colors k) as [c|] eqn:Ec; [|discriminate].
      destruct (dict_set "color" (color_json c) frame) as [frame'|] eqn:Es; [|discriminate].
      destruct (assign_colors rest auto_colors (S k)) as [rest'|] eqn:Er; [|discriminate].
      injection H as <-. destruct (IH _ _ Er) as [Hlen Hpt].
      split; [cbn [List.length]; now rewrite Hlen|].
      intros [|j] f Hj; cbn [nth_error] in Hj |- *.
      * injection Hj as <-. unfold colorless. rewrite En.
        exists c. unfold rank. cbn [firstn filter List.length].
        rewrite Nat.add_0_r. now rewrite Es.
      * specialize (Hpt j f Hj). rewrite rank_cons. unfold colorless at 2. rewrite En.
        destruct (colorless f); [|assumption].
        destruct Hpt as (c' & Hc' & Hf). exists c'.
        split; [|assumption].
        replace (k + (1 + rank rest j))%nat with (S k + rank rest j)%nat by lia. exact Hc'.
    + destruct (assign_colors rest auto_colors k) as [rest'|] eqn:Er; [|discriminate].
      injection H as <-. destruct (IH _ _ Er) as [Hlen Hpt].
      split; [cbn [List.length]; now rewrite Hlen|].
      intros [|j] f Hj; cbn [nth_error] in Hj |- *.
      * injection Hj as <-. unfold colorless. now rewrite En.
      * specialize (Hpt j f Hj). rewrite rank_cons. unfold colorless at 2. rewrite En.
        exact Hpt.
Qed.

Lemma rank_le (frames : list json) (j : nat) :
  (j < List.length frames)%nat -> forall frame, nth_error frames j = Some frame ->
  colorless frame = true -> (rank frames j < List.length (filter colorless frames))%nat.
Proof.
  revert j. induction frames as [|f rest IH]; intros j Hj frame Hn Hc.
  - destruct j; discriminate.
  - destruct j as [|j]; cbn [nth_error] in Hn.
    + injection Hn as ->. unfold rank. cbn [firstn filter List.length]. rewrite Hc.
      cbn [List.length]. lia.
    + rewrite rank_cons. cbn [filter]. cbn [List.length] in Hj.
      specialize (IH j ltac:(lia) frame Hn Hc).
      destruct (colorless f); cbn [List.length]; lia.
Qed.

Lemma colors_needed_nil (frames : list json) :
  colors_needed frames = Some [] ->
  forall frame, In frame frames -> needs_color frame = Some false.
Proof.
  induction frames as [|f rest IH]; intros H frame Hin; [destruct Hin|].
  cbn [colors_needed] in H.
  destruct (needs_color f) as [[|]|] eqn:En; try discriminate;
    destruct (colors_needed rest) as [l|]; try discriminate.
  injection H as ->. destruct Hin as [<-|Hin]; [assumption|]. now apply IH.
Qed.

(** What a successful load did to the value under ["frames"]. *)
Lemma process_frames_cases (frames frames' : json) :
  process_frames frames = Some frames' ->
  exists items, iterate frames = Some items
  /\ ((forall frame, In frame items -> needs_color frame = Some false) /\ frames' = frames
      \/ exists auto_colors items',
           generate_colors (List.length (filter colorless items)) = Some auto_colors
           /\ assign_colors items auto_colors 0 = Some items'
           /\ frames' = match frames with JArr _ => JArr items' | _ => frames end).
Proof.
  unfold process_frames. intros H.
  destruct (iterate frames) as [items|]; [|discriminate]. exists items. split; [reflexivity|].
  destruct (colors_needed items) as [needed|] eqn:En; [|discriminate].
  destruct needed as [|n0 needed].
  - left. injection H as <-. split; [|reflexivity]. now apply colors_needed_nil.
  - right. rewrite (colors_needed_count _ _ En) in H.
    destruct (generate_colors _) as [auto_colors|] eqn:Eg; [|discriminate].
    destruct (assign_colors items auto_colors 0) as [items'|] eqn:Ea; [|discriminate].
    injection H as <-. now exists auto_colors, items'.
Qed.

Lemma load_config_cases (file : file_read) (config' : json) :
  load_config file = Returned (Some config') ->
  exists config, file = Parsed config
  /\ (contains "frames" config = Some false /\ config' = config
      \/ exists frames frames',
           dict_item "frames" config = Some frames
           /\ process_frames frames = Some frames'
           /\ dict_set "frames" frames' config = Some config').
Proof.
  destruct file as [| |config]; cbn [load_config]; try discriminate.
  intros H. exists config. split; [reflexivity|].
  destruct (contains "frames" config) as [[|]|]; try discriminate.
  - right. destruct (dict_item "frames" config) as [frames|]; [|discriminate].
    destruct (process_frames frames) as [frames'|] eqn:Ep; [|discriminate].
    destruct (dict_set "frames" frames' config) as [c|] eqn:Es; [|discriminate].
    injection H as <-. now exists frames, frames'.
  - left. injection H as <-. split; reflexivity.
Qed.

(** What a load that returned a configuration did to a list of zones. *)
Lemma assignment_of_load (config config' : json) (frames : list json) :
  dict_item "frames" config = Some (JArr frames) ->
  load_config (Parsed config) = Returned (Some config') ->
  exists frames',
    dict_item "frames" config' = Some (JArr frames')
    /\ List.length frames' = List.length frames
    /\ forall j frame, nth_error frames j = Some frame ->
         if colorless frame
         then exists c,
                batch_formula (Z.of_nat (List.length (filter colorless frames)))
                              (Z.of_nat (rank frames j)) = Some c
                /\ nth_error frames' j = dict_set "color" (color_json c) frame
         else nth_error frames' j = Some frame.
Proof.
  intros Hf Hload.
  destruct (load_config_cases _ _ Hload) as (c0 & Hc0 & Hcases).
  injection Hc0 as <-.
  destruct Hcases as [[Hno _]|(fr & fr' & Hfr & Hp & Hs)].
  { destruct config; cbn [dict_item contains] in Hf, Hno; try discriminate.
    rewrite Hf in Hno. discriminate. }
  rewrite Hf in Hfr. injection Hfr as <-.
  destruct (process_frames_cases _ _ Hp) as (items & Hit & Hcases).
  cbn [iterate] in Hit. injection Hit as <-.
  destruct Hcases as [[Hall ->]|(auto_colors & items' & Hg & Ha & ->)].
  - exists frames. split; [now apply (dict_item_after_set _ _ _ _ Hs)|].
    split; [reflexivity|]. intros j frame Hj.
    unfold colorless. rewrite (Hall frame (nth_error_In _ _ Hj)). assumption.
  - exists items'. split; [now apply (dict_item_after_set _ _ _ _ Hs)|].
    destruct (assign_colors_pointwise _ _ _ _ Ha) as [Hlen Hpt].
    split; [assumption|]. intros j frame Hj. specialize (Hpt j frame Hj).
    destruct (colorless frame); [|assumption].
    destruct Hpt as (c & Hc & Hset). exists c. split; [|assumption].
    now apply (proj2 (generate_colors_nth _ _ Hg)).
Qed.

(** *** The load returns *)

Lemma needs_color_object (frame : json) :
  is_object frame = true -> exists b, needs_color frame = Some b.
Proof.
  destruct frame; try discriminate. intros _. unfold needs_color. cbn [dict_get].
  destruct (lookup "color" fields) as [[]|]; now eexists.
Qed.

Lemma colors_needed_total (frames : list json) :
  forallb is_object frames = true -> exists needed, colors_needed frames = Some needed.
Proof.
  induction frames as [|frame rest IH]; cbn [forallb colors_needed]; intros H.
  - now eexists.
  - apply andb_prop in H. destruct H as [Hf Hr].
    destruct (needs_color_object _ Hf) as [b ->]. destruct (IH Hr) as [l ->].
    destruct b; now eexists.
Qed.

Lemma assign_colors_total (frames : list json) (auto_colors : list (list Z)) :
  forall k : nat,
  forallb is_object frames = true ->
  (k + List.length (filter colorless frames) <= List.length auto_colors)%nat ->
  exists frames', assign_colors frames auto_colors k = Some frames'.
Proof.
  induction frames as [|frame rest IH]; intros k H Hlen; cbn [forallb assign_colors].
  - now eexists.
  - cbn [forallb] in H. apply andb_prop in H. destruct H as [Hf Hr].
    cbn [filter] in Hlen. unfold colorless at 1 in Hlen.
    destruct (needs_color_object _ Hf) as [b Hb]. rewrite Hb in Hlen |- *.
    destruct b.
    + cbn [List.length] in Hlen.
      destruct (nth_error auto_colors k) as [c|] eqn:Ec;
        [|apply nth_error_None in Ec; lia].
      destruct frame; try discriminate. cbn [dict_set].
      destruct (IH (S k) Hr ltac:(lia)) as [rest' ->]. now eexists.
    + destruct (IH k Hr Hlen) as [rest' ->]. now eexists.
Qed.

Lemma filter_length_le {A : Type} (f : A -> bool) (l : list A) :
  (List.length (filter f l) <= List.length l)%nat.
Proof.
  induction l as [|a l IH]; cbn [filter List.length]; [lia|].
  destruct (f a); cbn [List.length]; lia.
Qed.

(** The load of a file whose ["frames"] is a list of objects returns a
    configuration: neither loop raises, and the generator has a colour for
    every request. *)
Lemma load_config_returns (config : json) (frames : list json) :
  dict_item "frames" config = Some (JArr frames) ->
  forallb is_object frames = true ->
  Z.of_nat (List.length frames) < 2 ^ 53 ->
  exists config', load_config (Parsed config) = Returned (Some config').
Proof.
  intros Hf Hobj Hlen. destruct config; cbn [dict_item] in Hf; try discriminate.
  cbn [load_config contains dict_item]. rewrite Hf.
  unfold process_frames. cbn [iterate].
  destruct (colors_needed_total _ Hobj) as [needed Hn]. rewrite Hn.
  pose proof (colors_needed_count _ _ Hn) as Hc.
  destruct needed as [|n0 needed]; [cbn [dict_set]; now eexists|].
  pose proof (filter_length_le colorless frames) as Hle.
  destruct (generate_colors_total (List.length (n0 :: needed)) ltac:(lia))
    as [auto_colors Hg].
  rewrite Hg. destruct (generate_colors_nth _ _ Hg) as [Hlen' _].
  destruct (assign_colors_total frames auto_colors 0 Hobj ltac:(lia)) as [items' ->].
  cbn [dict_set]. now eexists.
Qed.

(** C3: the load of a list of zone records returns a configuration in which
    the colourless zones, and only they, have received the colours of the
    batch generator (hue [i / count], saturation by the parity of [i], value
    by [i mod 3]) in the order of the colourless subset; a zone that had a
    colour is left as it was. *)
Theorem batch_colors_on_load (config : json) (frames : list json) :
  dict_item "frames" config = Some (JArr frames) ->
  forallb is_object frames = true ->
  Z.of_nat (List.length frames) < 2 ^ 53 ->
  exists config' frames',
    load_config (Parsed config) = Returned (Some config')
    /\ dict_item "frames" config' = Some (JArr frames')
    /\ List.length frames' = List.length frames
    /\ forall j frame, nth_error frames j = Some frame ->
         if colorless frame
         then exists c,
                batch_formula (Z.of_nat (List.length (filter colorless frames)))
                              (Z.of_nat (rank frames j)) = Some c
                /\ nth_error frames' j = dict_set "color" (color_json c) frame
         else nth_error frames' j = Some frame.
Proof.
  intros Hf Hobj Hlen.
  destruct (load_config_returns _ _ Hf Hobj Hlen) as [config' Hload].
  destruct (assignment_of_load _ _ _ Hf Hload) as (frames' & H).
  exists config', frames'. split; assumption.
Qed.

(** The scenario of the specification: three zones, two of them without a
    colour.  The two receive the colours of hue [0/2] and [1/2]; the third
    keeps its own. *)
Lemma three_zones_scenario :
  load_config (Parsed (sample_config three_frames))
    = Returned (Some (sample_config three_frames_loaded))
  /\ int_truediv 0 2 = pzero /\ batch_formula 2 0 = Some [45; 45; 229]
  /\ int_truediv 1 2 = dec 5 1 /\ batch_formula 2 1 = Some [255; 255; 0].
Proof. repeat split; vm_compute; reflexivity. Qed.

Lemma batch_colors_on_load_witness :
  exists config' frames',
    load_config (Parsed (sample_config three_frames)) = Returned (Some config')
    /\ dict_item "frames" config' = Some (JArr frames')
    /\ List.length frames' = List.length three_frames
    /\ forall j frame, nth_error three_frames j = Some frame ->
         if colorless frame
         then exists c,
                batch_formula (Z.of_nat (List.length (filter colorless three_frames)))
                              (Z.of_nat (rank three_frames j)) = Some c
                /\ nth_error frames' j = dict_set "color" (color_json c) frame
         else nth_error frames' j = Some frame.
Proof.
  apply (batch_colors_on_load (sample_config three_frames));
    [reflexivity | reflexivity | vm_compute; reflexivity].
Defined.

Lemma needs_color_after_set (c : list Z) (frame frame' : json) :
  dict_set "color" (color_json c) frame = Some frame' -> needs_color frame' = Some false.
Proof.
  destruct frame; cbn [dict_set]; try discriminate.
  intros H. injection H as <-. unfold needs_color. cbn [dict_get].
  now rewrite lookup_assoc_set.
Qed.

Lemma assign_colors_all_colored (frames : list json) (auto_colors : list (list Z)) :
  forall (k : nat) (frames' : list json),
  assign_colors frames auto_colors k = Some frames' ->
  forall frame, In frame frames' -> needs_color frame = Some false.
Proof.
  induction frames as [|f rest IH]; intros k frames' H frame Hin; cbn [assign_colors] in H.
  - injection H as <-. destruct Hin.
  - destruct (needs_color f) as [[|]|] eqn:En; [| |discriminate].
    + destruct (nth_error auto_colors k) as [c|]; [|discriminate].
      destruct (dict_set "color" (color_json c) f) as [f'|] eqn:Es; [|discriminate].
      destruct (assign_colors rest auto_colors (S k)) as [rest'|] eqn:Er; [|discriminate].
      injection H as <-. destruct Hin as [<-|Hin].
      * now apply (needs_color_after_set c f).
      * now apply (IH _ _ Er).
    + destruct (assign_colors rest auto_colors k) as [rest'|] eqn:Er; [|discriminate].
      injection H as <-. destruct Hin as [<-|Hin]; [assumption|]. now apply (IH _ _ Er).
Qed.

(** C10: after a load that returned a configuration, every entry of its
    ["frames"] value has a colour. *)
Theorem colors_after_load (file : file_read) (config' frames' : json) (items : list json) :
  load_config file = Returned (Some config') ->
  dict_item "frames" config' = Some frames' ->
  iterate frames' = Some items ->
  forall frame, In frame items -> needs_color frame = Some false.
Proof.
  intros Hload Hf Hit.
  destruct (load_config_cases _ _ Hload) as (config & -> & Hcases).
  destruct Hcases as [[Hno ->]|(fr & fr' & Hfr & Hp & Hs)].
  { destruct config; cbn [dict_item contains] in Hf, Hno; try discriminate.
    rewrite Hf in Hno. discriminate. }
  rewrite (dict_item_after_set _ _ _ _ Hs) in Hf. injection Hf as <-.
  destruct (process_frames_cases _ _ Hp) as (items0 & Hit0 & Hcases).
  destruct Hcases as [[Hall ->]|(auto_colors & items' & Hg & Ha & ->)].
  - rewrite Hit0 in Hit. injection Hit as <-. exact Hall.
  - destruct fr; cbn [iterate] in Hit0, Hit; try discriminate.
    + (* the characters of a string have no [get]: the loops would have raised *)
      injection Hit0 as <-. injection Hit as <-.
      destruct s as [|ch s]; intros frame Hin; [destruct Hin|].
      cbn [chars assign_colors] in Ha. discriminate.
    + injection Hit as <-. exact (assign_colors_all_colored _ _ _ _ Ha).
    + (* so do the keys of an object *)
      injection Hit0 as <-. injection Hit as <-.
      destruct fields as [|[k v] fields]; intros frame Hin; [destruct Hin|].
      cbn [map assign_colors fst] in Ha. discriminate.
Qed.

Lemma colors_after_load_witness :
  Forall (fun frame => needs_color frame = Some false) three_frames_loaded.
Proof.
  apply Forall_forall.
  apply (colors_after_load (Parsed (sample_config three_frames))
           (sample_config three_frames_loaded) (JArr three_frames_loaded));
    vm_compute; reflexivity.
Defined.

End ConfigFacts.

(** ** Overlay compositors *)

Module OverlayFacts.
Import Binary64 Binary64Exact Binary64Bounds Geometry Json Overlay GeometryFacts Samples.

(** One call of the editor's [draw_frame_overlay]: the outline goes on the
    output buffer, the fill on a copy of the outlined buffer, the two are
    blended into the buffer, and the label is drawn on the blend. *)
Lemma draw_frame_overlay_shape (m : libm) (img result : image) (zone : json) (sel : bool) :
  draw_frame_overlay m img zone sel = Some result ->
  exists points line_color thickness color text pos,
    let outlined := Polylines img points true line_color thickness in
    result = PutText
               (PutText
                  (AddWeighted (FillPoly outlined points color) (dec 3 1)
                               outlined (dec 7 1) pzero)
                  text pos (dec 7 1) white 2)
               text pos (dec 7 1) black 1.
Proof.
  unfold draw_frame_overlay.
  destruct (zone_points m zone (JInt 0)) as [points|]; [|discriminate].
  destruct (dict_get_default "color" white zone) as [color|]; [|discriminate].
  destruct (dict_get_default "name" (JStr "Unnamed") zone) as [name|]; [|discriminate].
  destruct (valid_color _ && valid_color color); [|discriminate].
  destruct (label_pos points) as [pos|]; [|discriminate].
  destruct (as_text name) as [text|]; [|discriminate].
  intros H. injection H as <-.
  now exists points, (if sel then yellow else color), (if sel then 4 else 2), color, text, pos.
Qed.

Lemma draw_all_counts (m : libm) (zones : list json) :
  forall (img result : image) (i sel : Z),
  draw_all m img i sel zones = Some result ->
  blend_calls result = (blend_calls img + List.length zones)%nat
  /\ polylines_calls result = (polylines_calls img + List.length zones)%nat
  /\ (zones <> [] -> texts_on_top result = 2%nat).
Proof.
  induction zones as [|zone rest IH]; intros img result i sel H; cbn [draw_all] in H.
  - injection H as <-. cbn [List.length]. repeat split; try lia. contradiction.
  - destruct (draw_frame_overlay m img zone (i =? sel)) as [img'|] eqn:E; [|discriminate].
    destruct (draw_frame_overlay_shape _ _ _ _ _ E) as (pts & lc & th & c & t & p & Himg).
    cbv zeta in Himg. destruct (IH _ _ _ _ H) as (Hb & Hp & Ht).
    rewrite Hb, Hp, Himg. cbn [blend_calls polylines_calls List.length].
    rewrite !Nat.max_id. repeat split; try lia.
    intros _. destruct rest as [|z rest'].
    + cbn [draw_all] in H. injection H as <-. rewrite Himg. reflexivity.
    + apply Ht. discriminate.
Qed.

Lemma paint_zones_counts (m : libm) (zones : list json) :
  forall (img overlay : image) (i : nat),
  paint_zones m img i zones = Some overlay ->
  blend_calls overlay = blend_calls img
  /\ polylines_calls overlay = (polylines_calls img + List.length zones)%nat
  /\ fill_calls overlay = (fill_calls img + List.length zones)%nat
  /\ text_calls overlay = (text_calls img + 2 * List.length zones)%nat.
Proof.
  induction zones as [|zone rest IH]; intros img overlay i H; cbn [paint_zones] in H.
  - injection H as <-. cbn [List.length]. repeat split; lia.
  - destruct (paint_zone m img i zone) as [img'|] eqn:E; [|discriminate].
    destruct (IH _ _ _ H) as (Hb & Hp & Hf & Ht).
    unfold paint_zone in E.
    destruct (zone_points m zone (JInt 0)) as [points|]; [|discriminate].
    destruct (dict_get "color" zone) as [color|]; [|discriminate].
    destruct (dict_get_default "name" _ zone) as [name|]; [|discriminate].
    destruct (label_pos points) as [pos|]; [|discriminate].
    destruct (as_text name) as [text|]; [|discriminate].
    destruct (valid_color color); [|discriminate].
    injection E as <-. cbn [blend_calls polylines_calls fill_calls text_calls] in *.
    cbn [List.length]. repeat split; lia.
Qed.

Lemma cast_int32_range (z : option Z) : in_int32 (cast_int32 z) = true.
Proof.
  unfold cast_int32. destruct z as [v|]; [|reflexivity].
  destruct (in_int32 v) eqn:E; [exact E|reflexivity].
Qed.

Lemma mean4_total (a b c d : Z) :
  in_int32 a = true -> in_int32 b = true -> in_int32 c = true -> in_int32 d = true ->
  exists z, mean4 a b c d = Some z.
Proof.
  intros Ha Hb Hc Hd.
  apply in_int32_bounds in Ha, Hb, Hc, Hd.
  unfold mean4.
  assert (Hs : Zdigits2 (a + b + c + d) <= 34) by (apply Zdigits2_below; lia).
  pose proof (Zdigits2_nonneg (a + b + c + d)) as H0.
  pose proof (of_int_bounded (a + b + c + d) ltac:(lia)) as Hb'.
  assert (Hq : bounded_by (Zdigits2 (a + b + c + d) + 1 - 3 + 2)
                 (fdiv (of_int (a + b + c + d)) (of_int 4))).
  { change (of_int 4) with (S754_finite false 4503599627370496 (-50)).
    apply fdiv_bounded; [exact Hb'|cbn; lia|lia]. }
  destruct (py_int_bounded _ _ Hq ltac:(lia)) as (t & Ht & _). now exists t.
Qed.

(** *** Both compositors return on well-formed zones *)

Section Totality.
Variable m : libm.

Lemma label_pos_total (p1 p2 : num float64 * num float64) (r : num float64) :
  exists pos, label_pos (get_rotated_rectangle_points (A := binary64 m) p1 p2 r) = Some pos.
Proof.
  destruct p1 as [x1 y1], p2 as [x2 y2]. unfold get_rotated_rectangle_points.
  cbn [map astype_int32 binary64 fst snd label_pos].
  match goal with |- context [mean4 ?a ?b ?c ?d] =>
    destruct (mean4_total a b c d) as [x ->]; try apply cast_int32_range end.
  match goal with |- context [mean4 ?a ?b ?c ?d] =>
    destruct (mean4_total a b c d) as [y ->]; try apply cast_int32_range end.
  now eexists.
Qed.

Lemma well_formed_parts (zone : json) :
  well_formed zone = true ->
  exists fields p1 p2 r color name,
    zone = JObj fields
    /\ zone_points m zone (JInt 0)
       = Some (get_rotated_rectangle_points (A := binary64 m) p1 p2 r)
    /\ lookup "color" fields = Some color /\ valid_color color = true
    /\ lookup "name" fields = Some (JStr name).
Proof.
  unfold well_formed, zone_points.
  destruct zone; cbn [dict_item dict_get_default]; try discriminate.
  destruct (lookup "top_left" fields) as [tl|]; [|discriminate].
  destruct (lookup "bottom_right" fields) as [br|]; [|discriminate].
  destruct (lookup "rotation" fields) as [rot|]; [|discriminate].
  destruct (lookup "color" fields) as [color|] eqn:Ec; [|discriminate].
  destruct (lookup "name" fields) as [[| | | |name| |]|] eqn:En; try discriminate.
  destruct (as_point tl) as [p1|]; [|discriminate].
  destruct (as_point br) as [p2|]; [|discriminate].
  destruct (as_num rot) as [r|]; [|discriminate].
  intros Hc. exists fields, p1, p2, r, color, name.
  split; [reflexivity|]. split; [reflexivity|]. split; [exact Ec|].
  split; [exact Hc|exact En].
Qed.

Lemma paint_zone_total (overlay : image) (i : nat) (zone : json) :
  well_formed zone = true -> exists overlay', paint_zone m overlay i zone = Some overlay'.
Proof.
  intros Hw. destruct (well_formed_parts _ Hw) as (fields & p1 & p2 & r & color & name & H).
  destruct H as (-> & Hp & Hc & Hv & Hn). unfold paint_zone. rewrite Hp.
  cbn [dict_get dict_get_default]. rewrite Hc, Hn.
  destruct (label_pos_total p1 p2 r) as [pos ->]. cbn [as_text]. rewrite Hv. now eexists.
Qed.

Lemma paint_zones_total (zones : list json) :
  forall (overlay : image) (i : nat),
  forallb well_formed zones = true -> exists overlay', paint_zones m overlay i zones = Some overlay'.
Proof.
  induction zones as [|zone rest IH]; intros overlay i H; cbn [paint_zones].
  - now eexists.
  - cbn [forallb] in H. apply andb_prop in H. destruct H as [Hz Hr].
    destruct (paint_zone_total overlay i zone Hz) as [overlay' ->]. now apply IH.
Qed.

Lemma draw_frame_overlay_total (img : image) (zone : json) (sel : bool) :
  well_formed zone = true -> exists img', draw_frame_overlay m img zone sel = Some img'.
Proof.
  intros Hw. destruct (well_formed_parts _ Hw) as (fields & p1 & p2 & r & color & name & H).
  destruct H as (-> & Hp & Hc & Hv & Hn). unfold draw_frame_overlay. rewrite Hp.
  cbn [dict_get_default]. rewrite Hc, Hn.
  destruct (label_pos_total p1 p2 r) as [pos ->]. cbn [as_text].
  destruct sel; [change (valid_color yellow) with true|]; rewrite !Hv;
    cbn [andb]; now eexists.
Qed.

Lemma draw_all_total (zones : list json) :
  forall (img : image) (i sel : Z),
  forallb well_formed zones = true -> exists img', draw_all m img i sel zones = Some img'.
Proof.
  induction zones as [|zone rest IH]; intros img i sel H; cbn [draw_all].
  - now eexists.
  - cbn [forallb] in H. apply andb_prop in H. destruct H as [Hz Hr].
    destruct (draw_frame_overlay_total img zone (i =? sel) Hz) as [img' ->]. now apply IH.
Qed.

End Totality.



End OverlayFacts.

(** ** Zone store *)

Module ZoneStoreFacts.
Import Binary64 Json Editor Samples.

Lemma remove_nth_length {A : Type} (l : list A) (n : nat) :
  (n < List.length l)%nat -> List.length (remove_nth n l) = pred (List.length l).
Proof.
  revert n. induction l as [|x l IH]; intros n Hn; [cbn in Hn; lia|].
  destruct n as [|n]; cbn [remove_nth List.length]; [reflexivity|].
  cbn [List.length] in Hn. rewrite IH by lia. destruct l; cbn [List.length] in *; lia.
Qed.

Lemma replace_nth_length {A : Type} (l : list A) (n : nat) (y : A) :
  List.length (replace_nth n y l) = List.length l.
Proof.
  revert n. induction l as [|x l IH]; intros [|n]; cbn [replace_nth List.length]; auto.
Qed.

Lemma py_index_valid {A : Type} (l : list A) (i : Z) :
  0 <= i < Z.of_nat (List.length l) -> py_index l i = Some (Z.to_nat i).
Proof.
  intros H. unfold py_index.
  destruct (Z.leb_spec 0 i); [|lia].
  destruct (Z.ltb_spec i (Z.of_nat (List.length l))); [reflexivity|lia].
Qed.

Lemma nothing_selected_empty (st : editor) : frames_data st = [] -> nothing_selected st = true.
Proof. unfold nothing_selected. now intros ->. Qed.

(** On an empty store selecting, editing and deleting change nothing and
    return normally. *)
Lemma empty_store_inert (st : editor) :
  frames_data st = [] ->
  (forall index, select_frame index st = st)
  /\ (forall text, on_name_change text st = Done st)
  /\ (forall c value, on_slider_change c value st = Done st)
  /\ (forall c entry, on_textbox_change c entry st = Done st)
  /\ (forall confirmed, delete_frame confirmed st = Done st).
Proof.
  intros He. pose proof (nothing_selected_empty st He) as Hn.
  repeat split; intros.
  - unfold select_frame. rewrite He. cbn [List.length Z.of_nat].
    destruct (0 <=? index) eqn:E1; cbn [andb]; [|reflexivity].
    destruct (index <? 0) eqn:E2; [|reflexivity].
    apply Z.leb_le in E1. apply Z.ltb_lt in E2. lia.
  - unfold on_name_change. now rewrite Hn.
  - unfold on_slider_change. now rewrite Hn.
  - unfold on_textbox_change. now rewrite Hn.
  - unfold delete_frame. now rewrite He.
Qed.

Lemma delete_frame_nonempty (st : editor) :
  frames_data st <> [] ->
  delete_frame true st
  = match py_del (frames_data st) (selected_frame_index st) with
    | Some frames =>
        Done (with_store st frames
                (if Z.of_nat (List.length frames) <=? selected_frame_index st
                 then Z.max 0 (Z.of_nat (List.length frames) - 1)
                 else selected_frame_index st))
    | None => Failed st
    end.
Proof. unfold delete_frame. destruct (frames_data st); [contradiction|reflexivity]. Qed.

(** The effect of a confirmed delete on a store with a valid selection. *)
Lemma delete_frame_effect (st : editor) :
  valid_selection st -> frames_data st <> [] ->
  exists st',
    delete_frame true st = Done st'
    /\ frames_data st' = remove_nth (Z.to_nat (selected_frame_index st)) (frames_data st)
    /\ Z.of_nat (List.length (frames_data st')) = Z.of_nat (List.length (frames_data st)) - 1
    /\ selected_frame_index st'
       = (if selected_frame_index st <? Z.of_nat (List.length (frames_data st'))
          then selected_frame_index st
          else Z.max 0 (Z.of_nat (List.length (frames_data st')) - 1))
    /\ valid_selection st'
    /\ (List.length (frames_data st) = 1%nat ->
        frames_data st' = []
        /\ (forall index, select_frame index st' = st')
        /\ (forall text, on_name_change text st' = Done st')
        /\ (forall c value, on_slider_change c value st' = Done st')
        /\ (forall c entry, on_textbox_change c entry st' = Done st')
        /\ (forall confirmed, delete_frame confirmed st' = Done st')).
Proof.
  intros [H0 Hsel] Hne. specialize (Hsel Hne).
  set (len := List.length (frames_data st)) in *.
  set (sel := selected_frame_index st) in *.
  set (frames := remove_nth (Z.to_nat sel) (frames_data st)).
  assert (Hlen : List.length frames = pred len)
    by (apply remove_nth_length; fold len; lia).
  assert (Hpos : (0 < len)%nat).
  { unfold len. destruct (frames_data st); [contradiction|cbn; lia]. }
  exists (with_store st frames
            (if Z.of_nat (List.length frames) <=? sel
             then Z.max 0 (Z.of_nat (List.length frames) - 1) else sel)).
  assert (Hdel : delete_frame true st
                 = Done (with_store st frames
                           (if Z.of_nat (List.length frames) <=? sel
                            then Z.max 0 (Z.of_nat (List.length frames) - 1) else sel))).
  { rewrite delete_frame_nonempty by assumption. unfold py_del.
    rewrite py_index_valid by (fold len sel; lia). reflexivity. }
  split; [exact Hdel|]. cbn [with_store frames_data selected_frame_index].
  split; [reflexivity|]. split; [fold len; lia|].
  split.
  { rewrite Z.leb_antisym. destruct (sel <? Z.of_nat (List.length frames)); reflexivity. }
  split.
  { unfold valid_selection. cbn [with_store frames_data selected_frame_index].
    destruct (Z.leb_spec (Z.of_nat (List.length frames)) sel); split; try lia.
    intros Hne'. destruct frames; [contradiction|cbn [List.length] in *; lia]. }
  intros H1. assert (frames = []) as Hnil.
  { destruct frames; [reflexivity|]. cbn [List.length] in Hlen. lia. }
  split; [exact Hnil|]. apply empty_store_inert.
  cbn [with_store frames_data]. exact Hnil.
Qed.

(** C7: with a valid selection, a confirmed delete removes the selected
    zone and keeps the selection, or moves it to the last zone when it fell
    off the end; when the store had one zone it is left empty, and on the
    empty store every select, edit and delete does nothing and returns
    normally. *)
Theorem delete_reclamps_selection (st : editor) :
  valid_selection st ->
  (frames_data st = [] -> delete_frame true st = Done st)
  /\ (frames_data st <> [] ->
      exists st',
        delete_frame true st = Done st'
        /\ frames_data st' = remove_nth (Z.to_nat (selected_frame_index st)) (frames_data st)
        /\ Z.of_nat (List.length (frames_data st')) = Z.of_nat (List.length (frames_data st)) - 1
        /\ selected_frame_index st'
           = (if selected_frame_index st <? Z.of_nat (List.length (frames_data st'))
              then selected_frame_index st
              else Z.max 0 (Z.of_nat (List.length (frames_data st')) - 1))
        /\ valid_selection st'
        /\ (List.length (frames_data st) = 1%nat ->
            frames_data st' = []
            /\ (forall index, select_frame index st' = st')
            /\ (forall text, on_name_change text st' = Done st')
            /\ (forall c value, on_slider_change c value st' = Done st')
            /\ (forall c entry, on_textbox_change c entry st' = Done st')
            /\ (forall confirmed, delete_frame confirmed st' = Done st'))).
Proof.
  intros Hv. split.
  - intros He. now apply empty_store_inert.
  - intros Hne. now apply delete_frame_effect.
Qed.

Lemma delete_reclamps_selection_witness :
  valid_selection (sample_editor [zone_a])
  /\ exists st',
       delete_frame true (sample_editor [zone_a]) = Done st'
       /\ frames_data st' = []
       /\ selected_frame_index st' = 0
       /\ (forall index, select_frame index st' = st')
       /\ (forall c entry, on_textbox_change c entry st' = Done st')
       /\ (forall confirmed, delete_frame confirmed st' = Done st').
Proof.
  assert (Hv : valid_selection (sample_editor [zone_a])).
  { split; cbn; [lia|intros _; lia]. }
  split; [exact Hv|].
  destruct (delete_reclamps_selection (sample_editor [zone_a]) Hv) as [_ Hd].
  destruct (Hd ltac:(discriminate)) as (st' & Hdel & Hf & _ & Hsel & _ & Hone).
  destruct (Hone eq_refl) as (He & H1 & _ & _ & H4 & H5).
  exists st'. rewrite He in Hsel. cbn in Hsel. auto 10.
Defined.

(** The hypothesis on the selection holds in every state the editor
    reaches: it holds initially and every callback keeps it. *)
Lemma init_valid_selection (loaded : option json) (dims : option (Z * Z)) (st : editor) :
  init loaded dims = Some st -> valid_selection st.
Proof.
  unfold init. destruct loaded as [c|]; [|discriminate].
  destruct (truthy c); [|discriminate].
  destruct (dict_get_default "frames" (JArr []) c) as [[| | | | |frames|]|]; try discriminate.
  intros H. injection H as <-. unfold valid_selection. cbn.
  split; [lia|]. destruct frames; [contradiction|cbn [List.length]; lia].
Qed.

Lemma with_store_same_length_valid (st : editor) (frames : list json) :
  List.length frames = List.length (frames_data st) ->
  valid_selection st -> valid_selection (with_store st frames (selected_frame_index st)).
Proof.
  unfold valid_selection. cbn [with_store frames_data selected_frame_index].
  intros Hlen [H0 H1]. split; [assumption|]. rewrite Hlen. intros Hne. apply H1.
  destruct (frames_data st); [destruct frames; [contradiction|discriminate]|discriminate].
Qed.

Lemma select_frame_valid (index : Z) (st : editor) :
  valid_selection st -> valid_selection (select_frame index st).
Proof.
  intros Hv. unfold select_frame.
  destruct ((0 <=? index) && (index <? Z.of_nat (List.length (frames_data st)))) eqn:E;
    [|exact Hv].
  apply andb_true_iff in E. destruct E as [E1 E2].
  apply Z.leb_le in E1. apply Z.ltb_lt in E2.
  split; cbn [with_store frames_data selected_frame_index]; auto.
Qed.

Lemma update_frame_data_valid (c : control) (value : Z) (st : editor) :
  valid_selection st -> valid_selection (state_after (update_frame_data c value st)).
Proof.
  intros Hv. unfold update_frame_data.
  destruct (py_index (frames_data st) (selected_frame_index st)) as [n|]; [|exact Hv].
  destruct (nth_error (frames_data st) n) as [frame_data|]; [|exact Hv].
  match goal with |- context [match ?u with Some _ => _ | None => _ end] => destruct u end;
    [|exact Hv].
  cbn [state_after]. apply with_store_same_length_valid; [apply replace_nth_length|exact Hv].
Qed.

Lemma on_name_change_valid (text : string) (st : editor) :
  valid_selection st -> valid_selection (state_after (on_name_change text st)).
Proof.
  intros Hv. unfold on_name_change. destruct (nothing_selected st); [exact Hv|].
  destruct (py_index _ _) as [n|]; [|exact Hv].
  destruct (nth_error _ n) as [fd|]; [|exact Hv].
  destruct (dict_set _ _ fd); [|exact Hv].
  apply (with_store_same_length_valid st); [apply replace_nth_length|exact Hv].
Qed.

Lemma on_slider_change_valid (c : control) (value : float64) (st : editor) :
  valid_selection st -> valid_selection (state_after (on_slider_change c value st)).
Proof.
  intros Hv. unfold on_slider_change. destruct (nothing_selected st); [exact Hv|].
  destruct (py_int value); [now apply update_frame_data_valid|exact Hv].
Qed.

Lemma on_textbox_change_valid (c : control) (entry : option Z) (st : editor) :
  valid_selection st -> valid_selection (state_after (on_textbox_change c entry st)).
Proof.
  intros Hv. unfold on_textbox_change. destruct (nothing_selected st); [exact Hv|].
  destruct entry; [|exact Hv]. destruct (control_range c st).
  now apply update_frame_data_valid.
Qed.

Lemma add_new_frame_valid (st : editor) :
  valid_selection st -> valid_selection (state_after (add_new_frame st)).
Proof.
  intros Hv. unfold add_new_frame.
  destruct (match video st with Some (w, h) => _ | None => _ end) as [dw dh].
  destruct (Colors.generate_color_for_frame _); [|exact Hv].
  split; cbn [state_after with_store frames_data selected_frame_index];
    rewrite length_app; cbn [List.length]; lia.
Qed.

Lemma delete_frame_valid (confirmed : bool) (st : editor) :
  valid_selection st -> valid_selection (state_after (delete_frame confirmed st)).
Proof.
  intros Hv. destruct (frames_data st) as [|z zs] eqn:Ef.
  - unfold delete_frame. rewrite Ef. exact Hv.
  - destruct confirmed; [|unfold delete_frame; rewrite Ef; exact Hv].
    assert (Hne : frames_data st <> []) by (rewrite Ef; discriminate).
    destruct (delete_frame_effect st Hv Hne) as (st' & -> & _ & _ & _ & Hv' & _).
    exact Hv'.
Qed.

End ZoneStoreFacts.

(** ** Saving and reloading the configuration *)

Module PersistenceFacts.
Import Binary64 Json Editor JsonFacts Samples.

Section RoundTrip.
Variable text : Type.
Variable json_dumps : json -> text.
Variable json_loads : text -> option json.

(** What is asked of [json.dump] and [json.load]: a document written is
    read back as it was. *)
Hypothesis loads_dumps : forall doc, json_loads (json_dumps doc) = Some doc.

(** C4: a save of an editor whose configuration is a dictionary, to a file
    that can be written, reports success; loading that file then gives a
    configuration whose ["frames"] entry is the zone list that was saved,
    zone for zone and field for field, and an editor started on it holds
    that list. *)
Theorem save_then_load (st : editor) (fs : files text) (path : string)
    (dims : option (Z * Z)) :
  is_object (config st) = true ->
  exists st' fs' c st2,
    save_config text json_dumps true st fs path = (true, st', fs')
    /\ frames_data st' = frames_data st
    /\ load_config text json_loads fs' path = Some c
    /\ dict_item "frames" c = Some (JArr (frames_data st))
    /\ init (Some c) dims = Some st2
    /\ frames_data st2 = frames_data st.
Proof.
  unfold save_config. destruct (config st) as [| | | | | |fields] eqn:Ec;
    cbn [is_object dict_set]; try discriminate.
  intros _.
  exists (with_config st (JObj (assoc_set "frames" (JArr (frames_data st)) fields))).
  eexists.
  exists (JObj (assoc_set "frames" (JArr (frames_data st)) fields)).
  exists {| config := JObj (assoc_set "frames" (JArr (frames_data st)) fields);
            frames_data := frames_data st; selected_frame_index := 0;
            zoom_factor := one; pan_x := 0; pan_y := 0;
            last_mouse_x := 0; last_mouse_y := 0; is_panning := false;
            video := dims |}.
  split; [reflexivity|]. split; [reflexivity|].
  unfold load_config, write_file. rewrite String.eqb_refl, loads_dumps.
  split; [reflexivity|]. cbn [dict_item]. rewrite lookup_assoc_set.
  split; [reflexivity|]. unfold init. cbn [truthy dict_get_default].
  rewrite lookup_assoc_set.
  destruct (assoc_set "frames" (JArr (frames_data st)) fields) eqn:Ea;
    [now apply assoc_set_nonempty in Ea|].
  split; reflexivity.
Qed.

End RoundTrip.

(** The editor's configuration is a dictionary from the start. *)
Lemma init_config_object (loaded : option json) (dims : option (Z * Z)) (st : editor) :
  init loaded dims = Some st -> is_object (config st) = true.
Proof.
  unfold init. destruct loaded as [c|]; [|discriminate].
  destruct (truthy c); [|discriminate].
  destruct c; cbn [dict_get_default]; try discriminate.
  destruct (lookup "frames" fields) as [[]|]; try discriminate;
    intros H; injection H as <-; reflexivity.
Qed.

(** The theorem at work: the file holds the document itself, and the store
    holds two zones. *)
Lemma save_then_load_witness :
  exists st' fs' c st2,
    save_config json (fun doc => doc) true (sample_editor [zone_a; zone_b])
      (fun _ => None) "config.json" = (true, st', fs')
    /\ frames_data st' = [zone_a; zone_b]
    /\ load_config json Some fs' "config.json" = Some c
    /\ dict_item "frames" c = Some (JArr [zone_a; zone_b])
    /\ init (Some c) (Some (1600, 1200)) = Some st2
    /\ frames_data st2 = [zone_a; zone_b].
Proof.
  apply (save_then_load json (fun doc => doc) Some (fun doc => eq_refl)
           (sample_editor [zone_a; zone_b]) (fun _ => None) "config.json"
           (Some (1600, 1200))).
  reflexivity.
Defined.

End PersistenceFacts.

(** ** The player: what the display path does to the zone objects *)

Module PlayerFacts.
Import Binary64 Geometry Json Overlay Player Samples.

Lemma extends_refl (h : heap) : extends h h.
Proof. apply firstn_all. Qed.

Lemma extends_length (h0 h : heap) : extends h0 h -> (List.length h0 <= List.length h)%nat.
Proof.
  unfold extends. intros H. rewrite <- H at 1. rewrite length_firstn. lia.
Qed.

Lemma extends_app (h0 h : heap) (o : pyobj) : extends h0 h -> extends h0 (h ++ [o]).
Proof.
  intros H. pose proof (extends_length _ _ H). unfold extends in *.
  rewrite firstn_app. replace (List.length h0 - List.length h)%nat with O by lia.
  cbn [firstn]. now rewrite app_nil_r.
Qed.

Lemma extends_lookup (h0 h : heap) (l : loc) (o : pyobj) :
  extends h0 h -> nth_error h0 l = Some o -> nth_error h l = Some o.
Proof.
  unfold extends. intros H Hl. rewrite <- H in Hl.
  rewrite nth_error_firstn in Hl.
  destruct (l <? List.length h0)%nat; [assumption|discriminate].
Qed.

Lemma all_some_map_impl {A B : Type} (f g : A -> option B) (l : list A) (r : list B) :
  (forall x b, In x l -> f x = Some b -> g x = Some b) ->
  Colors.all_some (map f l) = Some r -> Colors.all_some (map g l) = Some r.
Proof.
  revert r. induction l as [|x l IH]; intros r Hfg H; [exact H|].
  cbn [map Colors.all_some] in H |- *.
  destruct (f x) as [b|] eqn:Ef; [|discriminate].
  rewrite (Hfg x b (or_introl eq_refl) Ef).
  destruct (Colors.all_some (map f l)) as [r'|] eqn:Er; [|discriminate].
  rewrite (IH r'); [exact H| |reflexivity].
  intros y c Hy. apply Hfg. now right.
Qed.

(** A document read through the store is read again, the same, through any
    store that keeps the objects, with as much fuel or more. *)
Lemma reify_stable (fuel : nat) :
  forall (fuel' : nat) (h h' : heap) (v : pyval) (doc : json),
  extends h h' -> (fuel <= fuel')%nat ->
  reify fuel h v = Some doc -> reify fuel' h' v = Some doc.
Proof.
  induction fuel as [|fuel IH]; intros fuel' h h' v doc He Hle H; [discriminate|].
  destruct fuel' as [|fuel']; [lia|].
  cbn [reify] in H |- *. destruct v; try exact H.
  destruct (nth_error h l) as [o|] eqn:El; [|discriminate].
  rewrite (extends_lookup _ _ _ _ He El).
  destruct o as [fields|items].
  2: { destruct (Colors.all_some (map (reify fuel h) items)) as [r|] eqn:Er; [|discriminate].
    rewrite (all_some_map_impl (reify fuel h) (reify fuel' h') items r); [exact H| |exact Er].
    intros x b _. apply IH; [exact He|lia]. }
  match type of H with option_map _ (Colors.all_some (map ?f _)) = _ =>
    destruct (Colors.all_some (map f fields)) as [r|] eqn:Er; [|discriminate];
    rewrite (all_some_map_impl f
               (fun kv => option_map (pair (fst kv)) (reify fuel' h' (snd kv))) fields r);
      [exact H| |exact Er]
  end.
  intros [k x] b _. cbn [fst snd].
  destruct (reify fuel h x) as [d|] eqn:Ex; [|discriminate].
  now rewrite (IH fuel' h h' x d He ltac:(lia) Ex).
Qed.

Lemma snapshot_stable (h h' : heap) (v : pyval) (doc : json) :
  extends h h' -> snapshot h v = Some doc -> snapshot h' v = Some doc.
Proof.
  intros He. unfold snapshot. apply reify_stable; [exact He|].
  pose proof (extends_length _ _ He). lia.
Qed.

Lemma firstn_replace_nth {A : Type} (n l : nat) (y : A) (h : list A) :
  (n <= l)%nat -> firstn n (Editor.replace_nth l y h) = firstn n h.
Proof.
  revert n l. induction h as [|x h IH]; intros n l Hle.
  - reflexivity.
  - destruct l as [|l]; cbn [Editor.replace_nth].
    + assert (n = O) as -> by lia. reflexivity.
    + destruct n as [|n]; [reflexivity|]. cbn [firstn]. f_equal. apply IH. lia.
Qed.

Lemma extends_store (h0 h : heap) (l : loc) (o : pyobj) :
  extends h0 h -> (List.length h0 <= l)%nat -> extends h0 (Editor.replace_nth l o h).
Proof. unfold extends. intros H Hl. now rewrite firstn_replace_nth. Qed.

Lemma keeps_ret {A : Type} (h0 : heap) (a : A) (Q : A -> Prop) : Q a -> keeps h0 (ret a) Q.
Proof. intros HQ h Hh. split; [exact Hh|]. cbn. intros a' E. now injection E as <-. Qed.

Lemma keeps_raise {A : Type} (h0 : heap) (Q : A -> Prop) : keeps h0 raise Q.
Proof. intros h Hh. split; [exact Hh|]. cbn. discriminate. Qed.

Lemma keeps_bind {A B : Type} (h0 : heap) (c : M A) (k : A -> M B)
    (Q : A -> Prop) (R : B -> Prop) :
  keeps h0 c Q -> (forall a, Q a -> keeps h0 (k a) R) -> keeps h0 (bind c k) R.
Proof.
  intros Hc Hk h Hh. unfold bind. destruct (Hc h Hh) as [He HQ].
  destruct (c h) as [[a|] h']; cbn [fst snd] in *.
  - apply (Hk a (HQ a eq_refl)). exact He.
  - split; [exact He|discriminate].
Qed.

Lemma keeps_weaken {A : Type} (h0 : heap) (c : M A) (Q R : A -> Prop) :
  keeps h0 c Q -> (forall a, Q a -> R a) -> keeps h0 c R.
Proof. intros Hc HQR h Hh. destruct (Hc h Hh) as [He HQ]. split; auto. Qed.

Lemma keeps_lift {A : Type} (h0 : heap) (o : option A) : keeps h0 (lift o) (fun _ => True).
Proof. destruct o; [now apply keeps_ret|apply keeps_raise]. Qed.

Lemma keeps_load (h0 : heap) (v : pyval) : keeps h0 (load v) (fun _ => True).
Proof. intros h Hh. unfold load. destruct v; cbn; auto. Qed.

Lemma keeps_load_dict (h0 : heap) (v : pyval) : keeps h0 (load_dict v) (fun _ => True).
Proof.
  unfold load_dict. eapply keeps_bind; [apply keeps_load|].
  intros [fields|items] _; [now apply keeps_ret|apply keeps_raise].
Qed.

Lemma keeps_load_list (h0 : heap) (v : pyval) : keeps h0 (load_list v) (fun _ => True).
Proof.
  unfold load_list. eapply keeps_bind; [apply keeps_load|].
  intros [fields|items] _; [apply keeps_raise|now apply keeps_ret].
Qed.

(** A fresh object lies beyond the objects of [h0]. *)
Lemma keeps_alloc (h0 : heap) (o : pyobj) :
  keeps h0 (alloc o) (fun l => (List.length h0 <= l)%nat).
Proof.
  intros h Hh. unfold alloc. cbn [fst snd]. split; [now apply extends_app|].
  intros l E. injection E as <-. now apply extends_length.
Qed.

(** Writing to an object that lies beyond those of [h0]. *)
Lemma keeps_set_item (h0 : heap) (l : loc) (k : string) (v : pyval) :
  (List.length h0 <= l)%nat -> keeps h0 (set_item l k v) (fun _ => True).
Proof.
  intros Hl. unfold set_item. eapply keeps_bind; [apply keeps_load_dict|].
  intros fields _ h Hh. unfold store. cbn [fst snd]. split; [now apply extends_store|auto].
Qed.

Lemma keeps_scaled_coord (h0 : heap) (fc : pyval) (key : string) (axis : nat) (scale : float64) :
  keeps h0 (scaled_coord fc key axis scale) (fun _ => True).
Proof.
  unfold scaled_coord.
  eapply keeps_bind; [apply keeps_load_dict|]. intros fields _.
  eapply keeps_bind; [apply keeps_lift|]. intros point _.
  eapply keeps_bind; [apply keeps_load_list|]. intros items _.
  eapply keeps_bind; [apply keeps_lift|]. intros [| | | | |] _;
    try apply keeps_raise; apply keeps_lift.
Qed.

(** The copy and its two new corner lists are fresh objects; the only
    writes go to the copy. *)
Lemma keeps_scale_config (h0 : heap) (sx sy : float64) (fc : pyval) :
  keeps h0 (scale_config sx sy fc) (fun _ => True).
Proof.
  unfold scale_config.
  eapply keeps_bind; [apply keeps_load_dict|]. intros fields _.
  eapply keeps_bind; [apply keeps_alloc|]. intros scaled Hfresh.
  eapply keeps_bind; [apply keeps_scaled_coord|]. intros x1 _.
  eapply keeps_bind; [apply keeps_scaled_coord|]. intros y1 _.
  eapply keeps_bind; [apply keeps_alloc|]. intros tl _.
  eapply keeps_bind; [now apply keeps_set_item|]. intros _ _.
  eapply keeps_bind; [apply keeps_scaled_coord|]. intros x2 _.
  eapply keeps_bind; [apply keeps_scaled_coord|]. intros y2 _.
  eapply keeps_bind; [apply keeps_alloc|]. intros br _.
  eapply keeps_bind; [now apply keeps_set_item|]. intros _ _.
  now apply keeps_ret.
Qed.

Lemma keeps_scale_all (h0 : heap) (sx sy : float64) (zones : list pyval) :
  keeps h0 (scale_all sx sy zones) (fun _ => True).
Proof.
  induction zones as [|z rest IH]; cbn [scale_all].
  - now apply keeps_ret.
  - eapply keeps_bind; [apply keeps_scale_config|]. intros s _.
    eapply keeps_bind; [apply IH|]. intros r _. now apply keeps_ret.
Qed.

Lemma keeps_draw (h0 : heap) (m : libm) (img : image) (zones : list pyval) :
  keeps h0 (draw m img zones) (fun _ => True).
Proof.
  intros h Hh. unfold draw. destruct (Colors.all_some _); cbn [fst snd]; auto.
Qed.

Lemma keeps_nonempty (h0 : heap) (v : pyval) : keeps h0 (nonempty v) (fun _ => True).
Proof.
  destruct v; cbn [nonempty]; try now apply keeps_ret.
  eapply keeps_bind; [apply keeps_load|].
  intros [[|]|[|]] _; now apply keeps_ret.
Qed.

Lemma keeps_render (h0 : heap) (cfg : settings) (overlays : bool) (frame0 : option image) :
  keeps h0 (render cfg overlays frame0) (fun _ => True).
Proof.
  unfold render.
  eapply keeps_bind; [apply keeps_lift|]. intros display_frame _.
  destruct (negb (window_width cfg =? 0) && negb (window_height cfg =? 0)).
  - destruct ((width cfg =? 0) || (height cfg =? 0)); [apply keeps_raise|].
    eapply keeps_bind.
    { destruct overlays; [apply keeps_nonempty|now apply keeps_ret]. }
    intros [|] _; [|now apply keeps_ret].
    eapply keeps_bind; [apply keeps_load_list|]. intros zones _.
    eapply keeps_bind; [apply keeps_scale_all|]. intros scaled _.
    apply keeps_draw.
  - eapply keeps_bind.
    { destruct overlays; [apply keeps_nonempty|now apply keeps_ret]. }
    intros [|] _; [|now apply keeps_ret].
    eapply keeps_bind; [apply keeps_load_list|]. intros zones _.
    apply keeps_draw.
Qed.

Lemma handle_key_objects (cfg : settings) (key : Z) (st : player) :
  objects (snd (handle_key cfg key st)) = objects st.
Proof.
  unfold handle_key.
  destruct (key =? key_q); [reflexivity|].
  destruct (key =? key_p); [reflexivity|].
  destruct ((key =? key_s) && paused st).
  { destruct (read cfg (position st)). reflexivity. }
  destruct (key =? key_r); [reflexivity|].
  destruct (key =? key_f); reflexivity.
Qed.

Lemma iteration_extends (cfg : settings) (key : Z) (st : player) (h0 : heap) :
  extends h0 (objects st) -> extends h0 (objects (snd (iteration cfg key st))).
Proof.
  intros Hh. unfold iteration.
  destruct (paused st).
  - destruct (keeps_render h0 cfg (show_overlays st) (frame st) (objects st) Hh) as [He _].
    destruct (render cfg (show_overlays st) (frame st) (objects st)) as [[img|] h];
      cbn [snd] in He; [rewrite handle_key_objects|]; exact He.
  - destruct (read cfg (position st)) as [[img|] pos]; cbn [objects frame show_overlays];
      [|exact Hh].
    destruct (keeps_render h0 cfg (show_overlays st) (Some img) (objects st) Hh) as [He _].
    destruct (render cfg (show_overlays st) (Some img) (objects st)) as [[img'|] h];
      cbn [snd] in He; [rewrite handle_key_objects|]; exact He.
Qed.

Lemma run_extends (cfg : settings) (keys : list Z) :
  forall (st : player) (h0 : heap),
  extends h0 (objects st) -> extends h0 (objects (snd (run cfg keys st))).
Proof.
  induction keys as [|key rest IH]; intros st h0 Hh; cbn [run].
  - exact Hh.
  - pose proof (iteration_extends cfg key st h0 Hh) as Hi.
    destruct (iteration cfg key st) as [[| |] st']; cbn [snd] in Hi |- *;
      [now apply IH|exact Hi|exact Hi].
Qed.

(** C9: whatever keys are pressed and however many frames are displayed,
    every object the store held when playback started, the zone
    dictionaries and their coordinate lists among them, is still there
    unchanged, and the zone records read through the store ([top_left],
    [bottom_right], [rotation], [color], [name]) are the ones read before
    playback; scaling writes only to objects it created. *)
Theorem scaling_never_writes_back (cfg : settings) (keys : list Z) (st : player) :
  firstn (List.length (objects st)) (objects (snd (run cfg keys st))) = objects st
  /\ forall doc, snapshot (objects st) (frames_config cfg) = Some doc ->
       snapshot (objects (snd (run cfg keys st))) (frames_config cfg) = Some doc.
Proof.
  pose proof (run_extends cfg keys st (objects st) (extends_refl _)) as He.
  split; [exact He|]. intros doc. now apply snapshot_stable.
Qed.

Lemma scaling_never_writes_back_witness :
  snapshot (objects (snd (run (sample_settings 3) [255; 255; 255]
                            (start true (snd sample_store)))))
           (frames_config (sample_settings 3))
  = Some (JArr [zone_a; zone_b]).
Proof.
  apply (proj2 (scaling_never_writes_back (sample_settings 3) [255; 255; 255]
                  (start true (snd sample_store)))).
  vm_compute. reflexivity.
Defined.

(** The sample at half size: each displayed frame outlines the two zones at
    half their coordinates, on copies made for that frame, and the zone
    list read through the store is the one loaded. *)
Lemma scaling_sample :
  let cfg := sample_settings 3 in
  let r := run cfg [255; 255; 255] (start true (snd sample_store)) in
  fst r = Running
  /\ map outlines (shown (snd r))
     = repeat [[(25, 25); (75, 25); (75, 75); (25, 75)];
               [(100, 50); (200, 50); (200, 150); (100, 150)]] 3
  /\ List.length (snd sample_store) = 9%nat
  /\ List.length (objects (snd r)) = 27%nat
  /\ snapshot (objects (snd r)) (frames_config cfg) = Some (JArr [zone_a; zone_b]).
Proof. vm_compute. repeat split. Qed.

(** *** The step command *)

(** While paused, with a frame left, a step reads that one frame, advances
    the cursor by one and stays paused. *)
Lemma step_reads_one_frame (cfg : settings) (st : player) :
  paused st = true -> (position st < delivered cfg)%nat ->
  handle_key cfg key_s st
  = (Running,
     {| paused := true; frame_count := frame_count st + 1;
        frame := Some (Raw (position st)); show_overlays := show_overlays st;
        position := S (position st); objects := objects st; shown := shown st |}).
Proof.
  intros Hp Hlt. unfold handle_key, read.
  change (key_s =? key_q) with false. change (key_s =? key_p) with false.
  change (key_s =? key_s) with true. rewrite Hp. cbn [andb].
  now rewrite (proj2 (Nat.ltb_lt _ _) Hlt).
Qed.

(** While playing, the step key is ignored. *)
Lemma step_ignored_while_playing (cfg : settings) (st : player) :
  paused st = false -> handle_key cfg key_s st = (Running, st).
Proof.
  intros Hp. unfold handle_key.
  change (key_s =? key_q) with false. change (key_s =? key_p) with false.
  rewrite Hp, andb_false_r. reflexivity.
Qed.

(** While playing, a failed read leaves the loop. *)
Lemma playing_past_the_end_exits (cfg : settings) (key : Z) (st : player) :
  paused st = false -> (delivered cfg <= position st)%nat ->
  fst (iteration cfg key st) = Exited.
Proof.
  intros Hp Hge. unfold iteration, read. rewrite Hp.
  now rewrite (proj2 (Nat.ltb_ge _ _) Hge).
Qed.

(** While paused, a step with no frame left stores [None] in [frame] and
    goes on; the next pass raises at [frame.copy()], whatever key follows. *)
Lemma step_past_the_end_crashes (cfg : settings) (key : Z) (st : player) :
  paused st = true -> (delivered cfg <= position st)%nat ->
  fst (handle_key cfg key_s st) = Running
  /\ frame (snd (handle_key cfg key_s st)) = None
  /\ fst (iteration cfg key (snd (handle_key cfg key_s st))) = Crashed.
Proof.
  intros Hp Hge. unfold handle_key, read.
  change (key_s =? key_q) with false. change (key_s =? key_p) with false.
  change (key_s =? key_s) with true. rewrite Hp. cbn [andb].
  rewrite (proj2 (Nat.ltb_ge _ _) Hge). cbn [fst snd frame].
  split; [reflexivity|]. split; [reflexivity|].
  unfold iteration. cbn [paused frame show_overlays objects]. reflexivity.
Qed.

(** C6: on a video of one frame, pause, then step: the step finds no frame,
    and the loop crashes on its next pass instead of ending as it does when
    the video runs out while playing. *)
Theorem step_at_end_of_video
    : fst (run (sample_settings 1) [key_p; key_s; key_q] (start true (snd sample_store)))
      = Crashed
      /\ fst (run (sample_settings 1) [255; 255] (start true (snd sample_store))) = Exited.
Proof. split; vm_compute; reflexivity. Qed.

End PlayerFacts.
